(** * Scacchi: the navigation-and-annotation engine of the chess game viewer

    A shallow embedding of the TypeScript sources

    - [utils.ts] with the types of [types.ts]   (module [ChessUtils]),
    - [components.tsx]                          (module [Components]),
    - [PositionAnalysis.tsx]                    (module [PositionAnalysisView]),
    - [home.tsx]                                (module [Home]),

    followed by the statements of the specification (modules [Spec...]) and
    by the properties that relate the two.

    Conventions of the embedding.

    - A JavaScript number that holds a board coordinate is a [JsNum]: an
      integer or [NaN], the only values [charCodeAt], [parseInt] and [-]
      produce here.  A number that holds an engine evaluation is an exact
      rational ([Q]): the rounding of IEEE doubles is not modelled.
    - A string is a [string] of code units; an optional property is an
      [option]; a truthiness test is written out.
    - A React handler is a function of the state of the render whose
      closure it holds.  The calls of the state setters it makes are
      committed together in the state it returns, next to the effects it
      started (HTTP requests, timeouts).  [handleMoveChange] is memoised
      ([useCallback]) on [gameData], [analyzeGame], [showSuggestedMoves]
      and [currentMove]: these it always reads from the last render.
      [showingBestMove], which it reads through [updateSuggestedMoves] and
      [analyzePosition], is no dependency: the callback holds the value of
      the render that created it, which the model keeps next to the state
      and passes to the handler.
    - A property read [o[k]] on an object literal also finds the members of
      [Object.prototype]: a [JS.Member].
    - The effects of a render run before the next event: the interval of
      the autoplay effect is the one of the last committed state.
    - A property access on [undefined] raises: such code returns [Res]. *)

From Stdlib Require Import ZArith QArith Qabs Qround Qminmax Lqa Lia.
From Stdlib Require Import Ascii String Sorted Permutation.
From stdpp Require Import base option list strings pretty gmap.

Local Open Scope string_scope.
Local Open Scope Z_scope.

(** ** JavaScript values used by the program *)

Inductive JsNum : Type :=
  | NaN
  | Num (z : Z).

Inductive Res (A : Type) : Type :=
  | Ok (a : A)
  | TypeError.
Arguments Ok {A} a.
Arguments TypeError {A}.

Module JS.

(** [a - b] on numbers: [NaN] is absorbing. *)
Definition sub (a b : JsNum) : JsNum :=
  match a, b with
  | Num x, Num y => Num (x - y)
  | _, _ => NaN
  end.

(** [s.charCodeAt(i)]: the code unit at [i], [NaN] past the end. *)
Definition charCodeAt (s : string) (i : nat) : JsNum :=
  match String.get i s with
  | Some c => Num (Z.of_nat (nat_of_ascii c))
  | None => NaN
  end.

(** [s.charAt(i)]: the one-character string at [i], [""] past the end. *)
Definition charAt (s : string) (i : nat) : string :=
  match String.get i s with
  | Some c => String c EmptyString
  | None => EmptyString
  end.

Definition digitValue (c : ascii) : option Z :=
  let n := nat_of_ascii c in
  if ((48 <=? n)%nat && (n <=? 57)%nat)%bool
  then Some (Z.of_nat (n - 48)) else None.

Fixpoint parseDigits (acc : Z) (s : string) : Z :=
  match s with
  | String c s' =>
      match digitValue c with
      | Some d => parseDigits (10 * acc + d) s'
      | None => acc
      end
  | EmptyString => acc
  end.

(** [parseInt(s)] for the strings the program passes to it, the result of
    [charAt]: the value of the leading decimal digits, [NaN] when there is
    none.  (Leading white space, a sign and the [0x] prefix, which
    [parseInt] also accepts, need more than one character to give a
    number.) *)
Definition parseInt (s : string) : JsNum :=
  match s with
  | String c s' =>
      match digitValue c with
      | Some d => Num (parseDigits d s')
      | None => NaN
      end
  | EmptyString => NaN
  end.

(** [`${n}`] for a number. *)
Definition show (n : JsNum) : string :=
  match n with
  | NaN => "NaN"
  | Num z => pretty z
  end.

(** Truthiness of a string: every string but the empty one. *)
Definition truthy_str (s : string) : bool :=
  match s with
  | EmptyString => false
  | String _ _ => true
  end.

(** [o ? ... : ...] for an optional string property. *)
Definition truthy_ostr (o : option string) : bool :=
  match o with
  | Some s => truthy_str s
  | None => false
  end.

(** [a[i]] for an array and a number index: [undefined] out of range. *)
Definition index {A : Type} (l : list A) (i : Z) : option A :=
  if i <? 0 then None else l !! Z.to_nat i.

(** [s.split(sep)] for a one-character separator: the pieces between the
    separators, [[""]] for the empty string. *)
Fixpoint split (sep : ascii) (s : string) : list string :=
  match s with
  | EmptyString => [EmptyString]
  | String c s' =>
      if Ascii.eqb c sep then EmptyString :: split sep s'
      else
        match split sep s' with
        | w :: ws => String c w :: ws
        | [] => [String c EmptyString]
        end
  end.

(** [a[i] = x] on an array that may have holes ([None]): past the end the
    array grows and the slots in between are holes. *)
Definition assign {A : Type} (a : list (option A)) (i : nat) (x : A)
    : list (option A) :=
  if (i <? length a)%nat then <[i := Some x]> a
  else (a ++ replicate (i - length a) None ++ [Some x])%list.

(** [a.slice(0, end)]: a negative [end] counts from the end of the array. *)
Definition slice0 {A : Type} (a : list A) (end_ : Z) : list A :=
  if end_ <? 0 then take (Z.to_nat (Z.of_nat (length a) + end_)) a
  else take (Z.to_nat end_) a.

(** The properties every object literal inherits from [Object.prototype]
    (ECMA-262, with the accessors of its annex B). *)
Definition objectPrototype : list string :=
  ["constructor"; "hasOwnProperty"; "isPrototypeOf";
   "propertyIsEnumerable"; "toLocaleString"; "toString"; "valueOf";
   "__proto__"; "__defineGetter__"; "__defineSetter__";
   "__lookupGetter__"; "__lookupSetter__"].

Definition inherited (k : string) : bool :=
  existsb (String.eqb k) objectPrototype.

(** What a property read [o[k]] on an object literal gives when it is not
    [undefined]: the value of an own property, or the member [k] of
    [Object.prototype] (a function such as [toString]; an object for
    [__proto__]).  A member is an object: truthy, and neither a string nor
    a number. *)
Inductive Member (A : Type) : Type :=
  | Own (a : A)
  | Inherited (k : string).
Arguments Own {A} a.
Arguments Inherited {A} k.

(** The own property [k] of the object literal with the given entries. *)
Fixpoint own {A : Type} (entries : list (string * A)) (k : string)
    : option A :=
  match entries with
  | [] => None
  | (k', a) :: entries' => if String.eqb k k' then Some a else own entries' k
  end.

(** [o[k]]: the own property, else the inherited one, else [undefined]. *)
Definition get {A : Type} (entries : list (string * A)) (k : string)
    : option (Member A) :=
  match own entries k with
  | Some a => Some (Own a)
  | None => if inherited k then Some (Inherited k) else None
  end.

(** [o[k] || d], with the truthiness test of the type of the values. *)
Definition getOr {A : Type} (truthy : A -> bool)
    (entries : list (string * A)) (k : string) (d : A) : Member A :=
  match get entries k with
  | Some (Own a) => if truthy a then Own a else Own d
  | Some (Inherited k') => Inherited k'
  | None => Own d
  end.

(** Truthiness of a number that is not [NaN]: every number but zero. *)
Definition truthy_num (z : Z) : bool := negb (z =? 0).

End JS.

(** ** types.ts *)

Record Position : Type := mkPosition {
  row : JsNum;
  col : JsNum
}.

Record MoveDetail : Type := mkMoveDetail {
  md_san : string;
  md_uci : string;
  md_from : string;
  md_to : string;
  md_piece : string;
  md_color : string;
  md_capture : bool;
  md_check : bool;
  md_checkmate : bool;
  md_moveNumber : Z;
  md_castling : option string;
  md_promotion : option string;
  md_is_best_move : option bool;
  md_evaluation : option Q
}.

(** [MoveHighlight], with the [isRookCastling] marker of
    [ExtendedMoveHighlight] (components.tsx declares it again).  [piece]
    and [promotion] hold what [pieceNameToChar] returned. *)
Record MoveHighlight : Type := mkMoveHighlight {
  fromRow : JsNum;
  fromCol : JsNum;
  toRow : JsNum;
  toCol : JsNum;
  piece : JS.Member string;
  isCapture : bool;
  isCheck : bool;
  isCheckmate : bool;
  promotion : option (JS.Member string);
  castling : option string;
  isSuggested : option bool;
  evaluation : option Q;
  isBestMove : option bool;
  isWorstMove : option bool;
  isFromBestMove : option bool;
  isRookCastling : option bool
}.

Record AnalysisMove : Type := mkAnalysisMove {
  am_uci : string;
  am_san : string;
  am_evaluation : Q
}.

Record PositionAnalysisData : Type := mkPositionAnalysisData {
  pa_evaluation : Q;
  bestMoves : list AnalysisMove;
  worstMoves : option (list AnalysisMove)
}.

Record Player : Type := mkPlayer {
  username : string;
  rating : Z
}.

(** [analysis?: any[]]: absent, or an array whose slots hold an analysis or
    [null]. *)
Record ChessGame : Type := mkChessGame {
  id : string;
  moves : list MoveDetail;
  positions : list string;
  white : Player;
  black : Player;
  result : string;
  timeControl : string;
  analysis : option (list (option PositionAnalysisData))
}.

(** ** utils.ts *)

Module ChessUtils.

(** [algebraicToIndices]: no validation, no [throw]; the body is two
    arithmetic expressions and an object literal. *)
Definition algebraicToIndices (algebraic : string) : Position :=
  let file := JS.sub (JS.charCodeAt algebraic 0) (JS.charCodeAt "a" 0) in
  let rank := JS.sub (Num 8) (JS.parseInt (JS.charAt algebraic 1)) in
  {| row := rank; col := file |}.

(** [pieceNameToChar]: [map[pieceName] || ''].  The result is the code of
    one of the six names, [''] for an unknown name, and the member of
    [Object.prototype] for a name the literal inherits. *)
Definition pieceNameToChar (pieceName : string) (isWhite : bool)
    : JS.Member string :=
  let map :=
    [ ("pawn", if isWhite then "P" else "p");
      ("knight", if isWhite then "N" else "n");
      ("bishop", if isWhite then "B" else "b");
      ("rook", if isWhite then "R" else "r");
      ("queen", if isWhite then "Q" else "q");
      ("king", if isWhite then "K" else "k") ] in
  JS.getOr JS.truthy_str map pieceName "".

(** The [options] argument of [createMoveHighlight]; [{}] by default. *)
Record Options : Type := mkOptions {
  o_isCapture : option bool;
  o_isCheck : option bool;
  o_isCheckmate : option bool;
  o_promotion : option string;
  o_castling : option string;
  o_isSuggested : option bool;
  o_evaluation : option Q;
  o_isBestMove : option bool;
  o_isWorstMove : option bool;
  o_isFromBestMove : option bool
}.

Definition noOptions : Options :=
  mkOptions None None None None None None None None None None.

Definition createMoveHighlight (from to piece color : string)
    (options : Options) : MoveHighlight :=
  let fromPos := algebraicToIndices from in
  let toPos := algebraicToIndices to in
  {| fromRow := row fromPos;
     fromCol := col fromPos;
     toRow := row toPos;
     toCol := col toPos;
     piece := pieceNameToChar piece (String.eqb color "white");
     isCapture := default false (o_isCapture options);
     isCheck := default false (o_isCheck options);
     isCheckmate := default false (o_isCheckmate options);
     promotion :=
       match o_promotion options with
       | Some p =>
           if JS.truthy_str p
           then Some (pieceNameToChar p (String.eqb color "white"))
           else None
       | None => None
       end;
     castling := o_castling options;
     isSuggested := o_isSuggested options;
     evaluation := o_evaluation options;
     isBestMove := o_isBestMove options;
     isWorstMove := o_isWorstMove options;
     isFromBestMove := o_isFromBestMove options;
     isRookCastling := None |}.

(** [fenToBoard]: the board starts as 8 rows of 8 empty strings; rank [i]
    of the first field of [fen] fills row [i] from column 0, a digit
    skipping that many columns and any other character being written at
    the current column.  [rows[i].length] raises when the field has fewer
    than 8 ranks. *)
Definition emptyRow : list (option string) := replicate 8 (Some "").

Fixpoint fillRow (chars : string) (col : nat) (row : list (option string))
    : list (option string) :=
  match chars with
  | EmptyString => row
  | String char rest =>
      match JS.digitValue char with
      | Some d => fillRow rest (col + Z.to_nat d) row
      | None =>
          fillRow rest (S col) (JS.assign row col (String char EmptyString))
      end
  end.

Fixpoint fillBoard (rows : list string) (i n : nat)
    : Res (list (list (option string))) :=
  match n with
  | O => Ok []
  | S n' =>
      match rows !! i with
      | None => TypeError
      | Some chars =>
          match fillBoard rows (S i) n' with
          | Ok board => Ok (fillRow chars 0 emptyRow :: board)
          | TypeError => TypeError
          end
      end
  end.

Definition piecePlacement (fen : string) : string :=
  hd EmptyString (JS.split " " fen).

Definition fenToBoard (fen : string) : Res (list (list (option string))) :=
  fillBoard (JS.split "/" (piecePlacement fen)) 0 8.

(** [renderPieceSymbol]: [pieceMap[piece] || '']. *)
Definition renderPieceSymbol (piece : string) : JS.Member string :=
  let pieceMap :=
    [ ("p", "♟"); ("n", "♞"); ("b", "♝"); ("r", "♜"); ("q", "♛");
      ("k", "♚");
      ("P", "♙"); ("N", "♘"); ("B", "♗"); ("R", "♖"); ("Q", "♕");
      ("K", "♔");
      ("", "") ] in
  JS.getOr JS.truthy_str pieceMap piece "".

(** [renderCapturedPiece]: [pieceMap[piece] || '']. *)
Definition renderCapturedPiece (piece : string) (isWhite : bool)
    : JS.Member string :=
  let pieceMap :=
    [ ("pawn", if isWhite then "♙" else "♟");
      ("knight", if isWhite then "♘" else "♞");
      ("bishop", if isWhite then "♗" else "♝");
      ("rook", if isWhite then "♖" else "♜");
      ("queen", if isWhite then "♕" else "♛");
      ("king", if isWhite then "♔" else "♚") ] in
  JS.getOr JS.truthy_str pieceMap piece "".

(** [getPieceValue]: [pieceValues[piece] || 0]. *)
Definition getPieceValue (piece : string) : JS.Member Z :=
  let pieceValues :=
    [ ("pawn", 1); ("knight", 3); ("bishop", 3); ("rook", 5);
      ("queen", 9); ("king", 0) ] in
  JS.getOr JS.truthy_num pieceValues piece 0.

(** [order[a] || 99] of [sortPiecesByValue]. *)
Definition orderOf (piece : string) : JS.Member Z :=
  let order :=
    [ ("queen", 1); ("rook", 2); ("bishop", 3); ("knight", 4);
      ("pawn", 5); ("king", 6) ] in
  JS.getOr JS.truthy_num order piece 99.

(** The comparator [(a, b) => (order[a] || 99) - (order[b] || 99)]: the
    difference of two numbers, [NaN] when one operand is a member of
    [Object.prototype]. *)
Definition compareOrder (a b : string) : JsNum :=
  match orderOf a, orderOf b with
  | JS.Own x, JS.Own y => Num (x - y)
  | _, _ => NaN
  end.

(** [Array.prototype.sort] with a comparator (ECMA-262).  When the
    comparator gives a number that is not [NaN] on every pair of elements
    it is a consistent comparator here (a difference of keys), and the
    result is the stable sort; otherwise the order is
    implementation-defined, which is [None]. *)
Definition consistent (pieces : list string) : bool :=
  forallb
    (fun a =>
       forallb
         (fun b =>
            match compareOrder a b with
            | Num _ => true
            | NaN => false
            end) pieces) pieces.

(** The stable sort, as an insertion sort that puts an element before the
    first element it does not follow ([NaN] reads as [+0]). *)
Fixpoint insertPiece (x : string) (sorted : list string) : list string :=
  match sorted with
  | [] => [x]
  | y :: rest =>
      match compareOrder y x with
      | Num v => if v <? 0 then y :: insertPiece x rest else x :: y :: rest
      | NaN => x :: y :: rest
      end
  end.

Fixpoint stableSort (pieces : list string) : list string :=
  match pieces with
  | [] => []
  | x :: rest => insertPiece x (stableSort rest)
  end.

(** [[...pieces].sort(comparator)] *)
Definition sortPiecesByValue (pieces : list string) : option (list string) :=
  if consistent pieces then Some (stableSort pieces) else None.

End ChessUtils.

(** ** Numbers that hold evaluations *)

Module Number.

(** [a < b] and [a > b] on evaluations. *)
Definition lt (a b : Q) : bool := negb (Qle_bool b a).
Definition gt (a b : Q) : bool := lt b a.

Fixpoint zeros (n : nat) : string :=
  match n with
  | O => EmptyString
  | S n' => String "0" (zeros n')
  end.

(** [x.toFixed(f)], after ECMA-262 (Number.prototype.toFixed) for
    [|x| < 10^21]: the sign is ["-"] when [x < 0]; [n] is the integer for
    which [n / 10^f - |x|] is closest to zero, the larger one on a tie;
    its digits are padded on the left to [f + 1] characters and the point
    is put before the last [f]. *)
Definition toFixed (f : nat) (x : Q) : string :=
  let s := if lt x 0 then "-" else "" in
  let x := Qabs x in
  let n := Qfloor (x * inject_Z (10 ^ Z.of_nat f) + (1 # 2)) in
  let m := pretty n in
  let k := String.length m in
  let m := if (k <=? f)%nat then zeros (f + 1 - k) +:+ m else m in
  let k := String.length m in
  let a := String.substring 0 (k - f) m in
  let b := String.substring (k - f) f m in
  if (f =? 0)%nat then s +:+ m else s +:+ a +:+ "." +:+ b.

End Number.

(** ** PositionAnalysis.tsx *)

Module PositionAnalysisView.

Definition formatEvaluation (evaluation : Q) : string :=
  if Number.gt (Qabs evaluation) 100 then
    let mateIn := Qceiling ((1000 - Qabs evaluation) / 10) in
    if Number.gt evaluation 0 then "+M" +:+ pretty mateIn
    else "-M" +:+ pretty mateIn
  else
    (if Number.gt evaluation 0 then "+" else "")
    +:+ Number.toFixed 2 evaluation.

End PositionAnalysisView.

(** ** components.tsx *)

Record SuggestedMoves : Type := mkSuggestedMoves {
  best : option (list MoveHighlight);
  worst : option (list MoveHighlight)
}.

(** The object literal [{}]. *)
Definition noSuggestedMoves : SuggestedMoves :=
  {| best := None; worst := None |}.

Record MoveQuality : Type := mkMoveQuality {
  label : string;
  color : string;
  symbol : string
}.

Module Components.

(** *** Chessboard: the map [allHighlights] *)

(** [{ ...h, isRookCastling: true }] *)
Definition withRookCastling (h : MoveHighlight) : MoveHighlight :=
  {| fromRow := fromRow h; fromCol := fromCol h;
     toRow := toRow h; toCol := toCol h;
     piece := piece h;
     isCapture := isCapture h; isCheck := isCheck h;
     isCheckmate := isCheckmate h;
     promotion := promotion h; castling := castling h;
     isSuggested := isSuggested h; evaluation := evaluation h;
     isBestMove := isBestMove h; isWorstMove := isWorstMove h;
     isFromBestMove := isFromBestMove h;
     isRookCastling := Some true |}.

(** [{ ...move, isFromBestMove: true }] *)
Definition withFromBestMove (h : MoveHighlight) : MoveHighlight :=
  {| fromRow := fromRow h; fromCol := fromCol h;
     toRow := toRow h; toCol := toCol h;
     piece := piece h;
     isCapture := isCapture h; isCheck := isCheck h;
     isCheckmate := isCheckmate h;
     promotion := promotion h; castling := castling h;
     isSuggested := isSuggested h; evaluation := evaluation h;
     isBestMove := isBestMove h; isWorstMove := isWorstMove h;
     isFromBestMove := Some true;
     isRookCastling := isRookCastling h |}.

(** [`${r}-${c}`] *)
Definition squareKey (r c : JsNum) : string :=
  JS.show r +:+ "-" +:+ JS.show c.

Definition fromKey (h : MoveHighlight) : string :=
  squareKey (fromRow h) (fromCol h).

Definition toKey (h : MoveHighlight) : string :=
  squareKey (toRow h) (toCol h).

(** The keys of the rook squares of a castling move. *)
Definition isKingside (h : MoveHighlight) : bool :=
  match castling h with
  | Some c => String.eqb c "kingside"
  | None => false
  end.

Definition rookFromKey (h : MoveHighlight) : string :=
  squareKey (fromRow h) (if isKingside h then Num 7 else Num 0).

Definition rookToKey (h : MoveHighlight) : string :=
  squareKey (fromRow h) (if isKingside h then Num 5 else Num 3).

(** [if (highlight) { ... }]: the entries of the played move. *)
Definition primaryHighlights (highlight : option MoveHighlight)
    : gmap string MoveHighlight :=
  match highlight with
  | None => ∅
  | Some h =>
      let m := <[fromKey h := h]> (∅ : gmap string MoveHighlight) in
      let m := <[toKey h := h]> m in
      if JS.truthy_ostr (castling h) then
        let m := <[rookFromKey h := withRookCastling h]> m in
        <[rookToKey h := withRookCastling h]> m
      else m
  end.

(** The body of [suggestedMoves.best.forEach]: an entry is written only
    where the map has none ([!allHighlights[key]]; an entry is an object,
    hence truthy). *)
Definition addBest (m : gmap string MoveHighlight) (move : MoveHighlight)
    : gmap string MoveHighlight :=
  let m :=
    match m !! fromKey move with
    | None => <[fromKey move := withFromBestMove move]> m
    | Some _ => m
    end in
  match m !! toKey move with
  | None => <[toKey move := move]> m
  | Some _ => m
  end.

(** The body of [suggestedMoves.worst.forEach]. *)
Definition addWorst (m : gmap string MoveHighlight) (move : MoveHighlight)
    : gmap string MoveHighlight :=
  match m !! toKey move with
  | None => <[toKey move := move]> m
  | Some _ => m
  end.

(** [if (l && l.length > 0) l.forEach(f)] *)
Definition forEach (f : gmap string MoveHighlight -> MoveHighlight ->
                        gmap string MoveHighlight)
    (l : option (list MoveHighlight)) (m : gmap string MoveHighlight)
    : gmap string MoveHighlight :=
  match l with
  | Some l => foldl f m l
  | None => m
  end.

Definition allHighlights (highlight : option MoveHighlight)
    (suggestedMoves : SuggestedMoves) : gmap string MoveHighlight :=
  let m := primaryHighlights highlight in
  let m := forEach addBest (best suggestedMoves) m in
  forEach addWorst (worst suggestedMoves) m.

(** *** Chessboard: the colours of a square *)

(** [`${highlight?.fromRow}-${highlight?.fromCol}`] *)
Definition primaryFromKey (highlight : option MoveHighlight) : string :=
  match highlight with
  | Some h => fromKey h
  | None => "undefined-undefined"
  end.

Definition primaryToKey (highlight : option MoveHighlight) : string :=
  match highlight with
  | Some h => toKey h
  | None => "undefined-undefined"
  end.

Definition flag (o : option bool) : bool := default false o.

(** [(bgColor, borderColor)] of the square at [rowIndex], [colIndex]
    holding [piece]. *)
Definition squareColors (highlight : option MoveHighlight)
    (suggestedMoves : SuggestedMoves) (rowIndex colIndex : nat)
    (piece : string) : string * string :=
  let isBlack := ((rowIndex + colIndex) mod 2 =? 1)%nat in
  let key := squareKey (Num (Z.of_nat rowIndex)) (Num (Z.of_nat colIndex)) in
  let highlightInfo := allHighlights highlight suggestedMoves !! key in
  let plain := if isBlack then "bg-gray-600" else "bg-gray-200" in
  let '(bgColor, borderColor) :=
    match highlightInfo with
    | Some info =>
        if String.eqb key (primaryFromKey highlight) then
          ("bg-yellow-300", "")
        else if String.eqb key (primaryToKey highlight) then
          (if from_option isCapture false highlight
           then "bg-red-400" else "bg-green-400", "")
        else if flag (isRookCastling info) then
          ("bg-blue-300", "")
        else if flag (isFromBestMove info) then
          (if isBlack then "bg-emerald-700" else "bg-emerald-400",
           "border-2 border-emerald-500")
        else if flag (isBestMove info) then
          ("bg-emerald-300", "border-2 border-emerald-600")
        else if flag (isWorstMove info) then
          ("bg-red-300", "border-2 border-red-600")
        else if flag (isSuggested info) then
          ("bg-blue-200", "border border-blue-400")
        else (plain, "")
    | None => (plain, "")
    end in
  let isKingUnderCheck :=
    (from_option isCheck false highlight
     && (String.eqb piece "k" || String.eqb piece "K")
     && negb (bool_decide (is_Some highlightInfo)))%bool in
  (bgColor, if isKingUnderCheck then "border-2 border-red-500"
            else borderColor).

(** *** PositionAnalysis: formatEvaluation *)

Definition formatEvaluation (evaluation : Q) : string :=
  let absEval := Qabs evaluation in
  if Number.gt absEval 100 then
    let mateIn := Qceiling ((1000 - absEval) / 10) in
    if Number.gt evaluation 0 then "+M" +:+ pretty mateIn
    else "-M" +:+ pretty mateIn
  else
    (if Number.gt evaluation 0 then "+" else "")
    +:+ Number.toFixed 2 evaluation.

(** *** getMoveQuality *)

Definition getMoveQuality (evaluation prevEvaluation : Q) : MoveQuality :=
  let diff := (prevEvaluation - evaluation)%Q in
  if Number.lt (Qabs diff) (2 # 10) then
    {| label := "Mossa da manuale"; color := "text-gray-600";
       symbol := "=" |}
  else if Number.gt diff 2 then
    {| label := "Mossa geniale"; color := "text-purple-600";
       symbol := "!!" |}
  else if Number.gt diff 1 then
    {| label := "Mossa ottima"; color := "text-green-600";
       symbol := "!" |}
  else if Number.gt diff (5 # 10) then
    {| label := "Buona mossa"; color := "text-blue-600";
       symbol := "!?" |}
  else if Number.lt diff (- 2) then
    {| label := "Errore grave"; color := "text-red-700";
       symbol := "??" |}
  else if Number.lt diff (- 1) then
    {| label := "Errore"; color := "text-red-500"; symbol := "?" |}
  else if Number.lt diff (- (5 # 10)) then
    {| label := "Imprecisione"; color := "text-yellow-600";
       symbol := "?!" |}
  else
    {| label := "Mossa da manuale"; color := "text-gray-600";
       symbol := "=" |}.

(** *** CapturedPieces *)

(** [calculateCapturedPieces]: for each capture among the moves played so
    far, the piece of the move is pushed on the list of the other colour.
    The pair is [(whiteCaptured, blackCaptured)]. *)
Definition calculateCapturedPieces (moves : list MoveDetail)
    (currentMoveIndex : Z) : list string * list string :=
  let relevantMoves := JS.slice0 moves currentMoveIndex in
  foldl
    (fun '(whiteCaptured, blackCaptured) move =>
       if md_capture move then
         if String.eqb (md_color move) "white"
         then (whiteCaptured, (blackCaptured ++ [md_piece move])%list)
         else ((whiteCaptured ++ [md_piece move])%list, blackCaptured)
       else (whiteCaptured, blackCaptured))
    ([], []) relevantMoves.

(** The accumulator of [reduce((sum, piece) => sum + getPieceValue(piece),
    0)]: a number, or, once a member of [Object.prototype] was added, the
    string that [+] builds from then on.  That string holds the text of the
    member and is no numeral. *)
Inductive Sum : Type :=
  | Total (z : Z)
  | Text.

Definition addValue (sum : Sum) (piece : string) : Sum :=
  match sum, ChessUtils.getPieceValue piece with
  | Total z, JS.Own v => Total (z + v)
  | _, _ => Text
  end.

(** [calculateMaterialAdvantage]: the two [reduce] sums and their
    difference, [NaN] when one of them is no number. *)
Definition calculateMaterialAdvantage (whiteCaptured blackCaptured
    : list string) : JsNum :=
  let whiteValue := foldl addValue (Total 0) whiteCaptured in
  let blackValue := foldl addValue (Total 0) blackCaptured in
  match blackValue, whiteValue with
  | Total b, Total w => Num (b - w)
  | _, _ => NaN
  end.

Definition materialAdvantage (moves : list MoveDetail)
    (currentMoveIndex : Z) : JsNum :=
  let '(whiteCaptured, blackCaptured) :=
    calculateCapturedPieces moves currentMoveIndex in
  calculateMaterialAdvantage whiteCaptured blackCaptured.

(** *** GameControls *)

(** The arguments the enabled controls pass to [onMoveChange]: the four
    buttons (first and previous are disabled at ply 0, next and last at the
    last ply) and one entry of the move list per move. *)
Definition onMoveChangeArguments (moves : list MoveDetail) (currentMove : Z)
    : list Z :=
  ((if currentMove =? 0 then [] else [0; currentMove - 1])
   ++ (if currentMove =? Z.of_nat (length moves) then []
       else [currentMove + 1; Z.of_nat (length moves)])
   ++ imap (fun index _ => Z.of_nat index + 1) moves)%list.

(** *** EvaluationBar *)

Definition normalizedEval (evaluation : Q) : Q :=
  (Qmax (- (5)) (Qmin 5 evaluation) / 5)%Q.

Definition whitePercentage (evaluation : Q) : Q :=
  (50 + normalizedEval evaluation * 50)%Q.

(** *** MoveQualityIndicator *)

Definition moveQualityIndicator (currentEval prevEval : Q)
    (isWhiteMove : bool) : MoveQuality :=
  let adjustedPrevEval := if isWhiteMove then prevEval else (- prevEval)%Q in
  let adjustedCurrentEval :=
    if isWhiteMove then currentEval else (- currentEval)%Q in
  getMoveQuality adjustedCurrentEval adjustedPrevEval.

End Components.

(** ** home.tsx *)

Module Home.

(** The state variables of the [Home] component ([useState]). *)
Record State : Type := mkState {
  gameUrl : string;
  gameData : option ChessGame;
  currentMove : Z;
  moveHighlight : option MoveHighlight;
  suggestedMoves : SuggestedMoves;
  loading : bool;
  error : option string;
  autoPlay : bool;
  playbackSpeed : Q;
  analyzeGame : bool;
  analyzingPosition : bool;
  showSuggestedMoves : bool;
  showingBestMove : bool;
  previousPositionEval : option Q
}.

(** The state setters. *)
Definition setGameData (v : option ChessGame) (s : State) : State :=
  mkState (gameUrl s) v (currentMove s) (moveHighlight s)
    (suggestedMoves s) (loading s) (error s) (autoPlay s)
    (playbackSpeed s) (analyzeGame s) (analyzingPosition s)
    (showSuggestedMoves s) (showingBestMove s) (previousPositionEval s).

Definition setCurrentMove (v : Z) (s : State) : State :=
  mkState (gameUrl s) (gameData s) v (moveHighlight s)
    (suggestedMoves s) (loading s) (error s) (autoPlay s)
    (playbackSpeed s) (analyzeGame s) (analyzingPosition s)
    (showSuggestedMoves s) (showingBestMove s) (previousPositionEval s).

Definition setMoveHighlight (v : option MoveHighlight) (s : State)
    : State :=
  mkState (gameUrl s) (gameData s) (currentMove s) v
    (suggestedMoves s) (loading s) (error s) (autoPlay s)
    (playbackSpeed s) (analyzeGame s) (analyzingPosition s)
    (showSuggestedMoves s) (showingBestMove s) (previousPositionEval s).

Definition setSuggestedMoves (v : SuggestedMoves) (s : State) : State :=
  mkState (gameUrl s) (gameData s) (currentMove s) (moveHighlight s)
    v (loading s) (error s) (autoPlay s)
    (playbackSpeed s) (analyzeGame s) (analyzingPosition s)
    (showSuggestedMoves s) (showingBestMove s) (previousPositionEval s).

Definition setAutoPlay (v : bool) (s : State) : State :=
  mkState (gameUrl s) (gameData s) (currentMove s) (moveHighlight s)
    (suggestedMoves s) (loading s) (error s) v
    (playbackSpeed s) (analyzeGame s) (analyzingPosition s)
    (showSuggestedMoves s) (showingBestMove s) (previousPositionEval s).

Definition setAnalyzingPosition (v : bool) (s : State) : State :=
  mkState (gameUrl s) (gameData s) (currentMove s) (moveHighlight s)
    (suggestedMoves s) (loading s) (error s) (autoPlay s)
    (playbackSpeed s) (analyzeGame s) v
    (showSuggestedMoves s) (showingBestMove s) (previousPositionEval s).

Definition setShowingBestMove (v : bool) (s : State) : State :=
  mkState (gameUrl s) (gameData s) (currentMove s) (moveHighlight s)
    (suggestedMoves s) (loading s) (error s) (autoPlay s)
    (playbackSpeed s) (analyzeGame s) (analyzingPosition s)
    (showSuggestedMoves s) v (previousPositionEval s).

Definition setPreviousPositionEval (v : option Q) (s : State) : State :=
  mkState (gameUrl s) (gameData s) (currentMove s) (moveHighlight s)
    (suggestedMoves s) (loading s) (error s) (autoPlay s)
    (playbackSpeed s) (analyzeGame s) (analyzingPosition s)
    (showSuggestedMoves s) (showingBestMove s) v.

(** [gameData.analysis && gameData.analysis[i]]: the analysis of ply [i],
    when the table exists and its slot [i] holds an object. *)
Definition analysisAt (g : ChessGame) (i : Z)
    : option PositionAnalysisData :=
  match analysis g with
  | Some table =>
      match JS.index table i with
      | Some (Some a) => Some a
      | _ => None
      end
  | None => None
  end.

(** [gameData.moves.length] *)
Definition moveCount (g : ChessGame) : Z := Z.of_nat (length (moves g)).

(** *** updateSuggestedMoves *)

(** The highlight pushed on [best] at iteration [i] of the loop. *)
Definition bestHighlight (i : nat) (move : AnalysisMove) : MoveHighlight :=
  let from := String.substring 0 2 (am_uci move) in
  let to := String.substring 2 2 (am_uci move) in
  ChessUtils.createMoveHighlight from to "pawn" "white"
    {| ChessUtils.o_isCapture := None;
       ChessUtils.o_isCheck := None;
       ChessUtils.o_isCheckmate := None;
       ChessUtils.o_promotion := None;
       ChessUtils.o_castling := None;
       ChessUtils.o_isSuggested := Some (0 <? i)%nat;
       ChessUtils.o_evaluation := Some (am_evaluation move);
       ChessUtils.o_isBestMove := Some (i =? 0)%nat;
       ChessUtils.o_isWorstMove := None;
       ChessUtils.o_isFromBestMove := Some true |}.

(** The highlight pushed on [worst]. *)
Definition worstHighlight (move : AnalysisMove) : MoveHighlight :=
  let from := String.substring 0 2 (am_uci move) in
  let to := String.substring 2 2 (am_uci move) in
  ChessUtils.createMoveHighlight from to "pawn" "white"
    {| ChessUtils.o_isCapture := None;
       ChessUtils.o_isCheck := None;
       ChessUtils.o_isCheckmate := None;
       ChessUtils.o_promotion := None;
       ChessUtils.o_castling := None;
       ChessUtils.o_isSuggested := None;
       ChessUtils.o_evaluation := Some (am_evaluation move);
       ChessUtils.o_isBestMove := None;
       ChessUtils.o_isWorstMove := Some true;
       ChessUtils.o_isFromBestMove := None |}.

(** [updateSuggestedMoves(analysisData)], as a function of the two state
    variables its closure reads; the result is the argument of its one
    call of [setSuggestedMoves]. *)
Definition updateSuggestedMoves (showSuggestedMoves showingBestMove : bool)
    (analysisData : option PositionAnalysisData) : SuggestedMoves :=
  match analysisData with
  | None => noSuggestedMoves
  | Some analysisData =>
      if (negb showSuggestedMoves && negb showingBestMove)%bool
      then noSuggestedMoves
      else
        let maxMoves : nat :=
          if showingBestMove then 1%nat
          else if showSuggestedMoves then 2%nat else 0%nat in
        let best :=
          imap bestHighlight
            (take (Nat.min maxMoves (length (bestMoves analysisData)))
                  (bestMoves analysisData)) in
        let worst :=
          if (showSuggestedMoves && negb showingBestMove)%bool then
            match worstMoves analysisData with
            | Some (move :: _) => [worstHighlight move]
            | _ => []
            end
          else [] in
        {| best := Some best; worst := Some worst |}
  end.

(** *** analyzePosition *)

(** A call of [POST /api/chess/evaluate] that has not returned, with what
    the continuation of [analyzePosition] keeps in its closure. *)
Record Request : Type := mkRequest {
  rq_fen : option string;
  rq_depth : Z;
  rq_moveIndex : Z;
  rq_showSuggestedMoves : bool;
  rq_showingBestMove : bool
}.

(** [analyzePosition(fen, moveIndex)] up to its [await]: [render] is the
    state its closure reads, [s] the state the setters act on. *)
Definition analyzePosition (render : State) (fen : option string)
    (moveIndex : Z) (s : State) : State * list Request :=
  match gameData render with
  | None => (s, [])
  | Some _ =>
      (setAnalyzingPosition true s,
       [ {| rq_fen := fen; rq_depth := 4; rq_moveIndex := moveIndex;
            rq_showSuggestedMoves := showSuggestedMoves render;
            rq_showingBestMove := showingBestMove render |} ])
  end.

(** [while (a.length <= moveIndex) a.push(null); a[moveIndex] = data] *)
Definition store (table : list (option PositionAnalysisData))
    (moveIndex : Z) (data : PositionAnalysisData)
    : list (option PositionAnalysisData) :=
  if moveIndex <? 0 then table
  else
    let padded :=
      (table
       ++ replicate (Z.to_nat moveIndex + 1 - length table)%nat None)%list
    in
    <[Z.to_nat moveIndex := Some data]> padded.

Definition withAnalysis (g : ChessGame)
    (table : list (option PositionAnalysisData)) : ChessGame :=
  {| id := id g; moves := moves g; positions := positions g;
     white := white g; black := black g; result := result g;
     timeControl := timeControl g; analysis := Some table |}.

(** The continuation of [analyzePosition] when the response arrives.  All
    copies [{...gameData}] of the loaded game share one [analysis] array,
    the one the closure writes into; the state holds that game. *)
Definition analysisResolved (rq : Request)
    (data : option PositionAnalysisData) (s : State) : State :=
  let s :=
    match data, gameData s with
    | Some d, Some g =>
        let table := store (default [] (analysis g)) (rq_moveIndex rq) d in
        let s := setGameData (Some (withAnalysis g table)) s in
        if (rq_showSuggestedMoves rq || rq_showingBestMove rq)%bool then
          setSuggestedMoves
            (updateSuggestedMoves (rq_showSuggestedMoves rq)
               (rq_showingBestMove rq) (Some d)) s
        else s
    | _, _ => s
    end in
  setAnalyzingPosition false s.

(** The continuation when the request fails: [catch] logs, [finally]. *)
Definition analysisRejected (s : State) : State :=
  setAnalyzingPosition false s.

(** *** handleMoveChange *)

(** The primary highlight of a played move. *)
Definition playedHighlight (move : MoveDetail) : MoveHighlight :=
  ChessUtils.createMoveHighlight (md_from move) (md_to move)
    (md_piece move) (md_color move)
    {| ChessUtils.o_isCapture := Some (md_capture move);
       ChessUtils.o_isCheck := Some (md_check move);
       ChessUtils.o_isCheckmate := Some (md_checkmate move);
       ChessUtils.o_promotion := md_promotion move;
       ChessUtils.o_castling := md_castling move;
       ChessUtils.o_isSuggested := None;
       ChessUtils.o_evaluation := md_evaluation move;
       ChessUtils.o_isBestMove := None;
       ChessUtils.o_isWorstMove := None;
       ChessUtils.o_isFromBestMove := None |}.

(** [handleMoveChange(moveIndex)].  [s] is the state of the last render:
    the callback reads [gameData], [currentMove], [showSuggestedMoves] and
    [analyzeGame], its dependencies, and its setters act on [s].
    [captured] is the [showingBestMove] of the render that created the
    memoised callback: the value the [updateSuggestedMoves] and the
    [analyzePosition] of its closure read. *)
Definition handleMoveChange (captured : bool) (s : State) (moveIndex : Z)
    : Res (State * list Request) :=
  match gameData s with
  | None => Ok (s, [])
  | Some g =>
      if ((moveIndex <? 0) || (moveCount g <? moveIndex))%bool
      then Ok (s, [])
      else
        let s1 :=
          match analysisAt g (currentMove s) with
          | Some a => setPreviousPositionEval (Some (pa_evaluation a)) s
          | None => s
          end in
        let s2 := setCurrentMove moveIndex s1 in
        let s3 := setShowingBestMove false s2 in
        let s4 :=
          match analysisAt g moveIndex with
          | Some a =>
              if showSuggestedMoves s then
                setSuggestedMoves
                  (updateSuggestedMoves (showSuggestedMoves s)
                     captured (Some a)) s3
              else setSuggestedMoves noSuggestedMoves s3
          | None => setSuggestedMoves noSuggestedMoves s3
          end in
        if 0 <? moveIndex then
          match JS.index (moves g) (moveIndex - 1) with
          | None => TypeError
          | Some move =>
              let s5 := setMoveHighlight (Some (playedHighlight move)) s4 in
              match JS.index (positions g) moveIndex with
              | Some fen =>
                  if (analyzeGame s && JS.truthy_str fen)%bool then
                    match analysisAt g moveIndex with
                    | None =>
                        Ok (analyzePosition (setShowingBestMove captured s)
                              (Some fen) moveIndex s5)
                    | Some _ => Ok (s5, [])
                    end
                  else Ok (s5, [])
              | None => Ok (s5, [])
              end
          end
        else Ok (setMoveHighlight None s4, [])
  end.

(** *** handleToggleBestMove *)

(** [positions[currentMove]] is read after the test
    [currentMove < positions.length]: it is [undefined] for a negative
    index only. *)
Definition handleToggleBestMove (s : State) : State * list Request :=
  match gameData s with
  | None => (s, [])
  | Some g =>
      match analysisAt g (currentMove s) with
      | None =>
          if currentMove s <? Z.of_nat (length (positions g)) then
            analyzePosition s (JS.index (positions g) (currentMove s))
              (currentMove s) s
          else (s, [])
      | Some a =>
          let newShowingState := negb (showingBestMove s) in
          let s1 := setShowingBestMove newShowingState s in
          (setSuggestedMoves
             (updateSuggestedMoves (showSuggestedMoves s)
                (showingBestMove s) (Some a)) s1, [])
      end
  end.

(** *** handleShowMoveOnBoard *)

(** A pending [setTimeout] callback with what its closure holds. *)
Record Timeout : Type := mkTimeout {
  tm_delay : Z;
  tm_currentMove : Z;
  tm_gameData : option ChessGame
}.

(** The highlight the callback builds: the options carry no [evaluation]. *)
Definition restoredHighlight (move : MoveDetail) : MoveHighlight :=
  ChessUtils.createMoveHighlight (md_from move) (md_to move)
    (md_piece move) (md_color move)
    {| ChessUtils.o_isCapture := Some (md_capture move);
       ChessUtils.o_isCheck := Some (md_check move);
       ChessUtils.o_isCheckmate := Some (md_checkmate move);
       ChessUtils.o_promotion := md_promotion move;
       ChessUtils.o_castling := md_castling move;
       ChessUtils.o_isSuggested := None;
       ChessUtils.o_evaluation := None;
       ChessUtils.o_isBestMove := None;
       ChessUtils.o_isWorstMove := None;
       ChessUtils.o_isFromBestMove := None |}.

(** [handleShowMoveOnBoard(moveHighlight)]: the new state and the timeout
    it sets.  No handle of the timeout is kept and [clearTimeout] is never
    called. *)
Definition handleShowMoveOnBoard (s : State) (moveHighlight : MoveHighlight)
    : State * Timeout :=
  (setMoveHighlight (Some moveHighlight) s,
   {| tm_delay := 1500;
      tm_currentMove := currentMove s;
      tm_gameData := gameData s |}).

(** The callback of the timeout. *)
Definition timeoutFired (t : Timeout) (s : State) : Res State :=
  match tm_gameData t with
  | Some g =>
      if 0 <? tm_currentMove t then
        match JS.index (moves g) (tm_currentMove t - 1) with
        | None => TypeError
        | Some move => Ok (setMoveHighlight (Some (restoredHighlight move)) s)
        end
      else Ok (setMoveHighlight None s)
  | None => Ok (setMoveHighlight None s)
  end.

(** *** The autoplay effect *)

(** The interval the effect sets, with the game its callback holds. *)
Record Interval : Type := mkInterval {
  iv_period : Q;
  iv_gameData : ChessGame
}.

(** The body of the effect: what is scheduled for a render with state
    [s].  Its clean-up clears the interval of the previous render. *)
Definition autoplayEffect (s : State) : option Interval :=
  match gameData s with
  | Some g =>
      if (autoPlay s && (currentMove s <? moveCount g))%bool then
        Some {| iv_period := (playbackSpeed s * 1000)%Q; iv_gameData := g |}
      else None
  | None => None
  end.

(** The callback of the interval: [setCurrentMove(prev => ...)]. *)
Definition intervalFired (iv : Interval) (s : State) : State :=
  let prev := currentMove s in
  if moveCount (iv_gameData iv) <=? prev then setAutoPlay false s
  else setCurrentMove (prev + 1) s.

(** *** The component as a transition system *)

(** The state of the component with what is kept and in flight around
    it: the [showingBestMove] held by the memoised [handleMoveChange], the
    evaluation requests awaiting their response, the timeouts set (with
    the time each is due, in the order they were set), the interval of the
    current render, and a count of the restorations run so far. *)
Record World : Type := mkWorld {
  st : State;
  memo : bool;
  requests : list Request;
  clock : Z;
  timeouts : list (Z * Timeout);
  interval : option Interval;
  restorations : nat
}.

(** [useCallback(..., [gameData, analyzeGame, showSuggestedMoves,
    currentMove])] in the render of state [s] that follows the render of
    state [old]: the callback is created anew, around the [showingBestMove]
    of [s], when a dependency changed; otherwise the memoised one is kept
    with the value it holds.  [newGameData] tells whether [setGameData] was
    called: it is always given a new object. *)
Definition useCallback (newGameData : bool) (old s : State)
    (captured : bool) : bool :=
  if (newGameData
      || negb (Bool.eqb (analyzeGame s) (analyzeGame old))
      || negb (Bool.eqb (showSuggestedMoves s) (showSuggestedMoves old))
      || negb (currentMove s =? currentMove old))%bool
  then showingBestMove s
  else captured.

(** A render that commits state [s]: [handleMoveChange] is memoised and
    the autoplay effect replaces the interval. *)
Definition rendered (newGameData : bool) (s : State) (w : World) : World :=
  {| st := s; memo := useCallback newGameData (st w) s (memo w);
     requests := requests w; clock := clock w;
     timeouts := timeouts w; interval := autoplayEffect s;
     restorations := restorations w |}.

(** The render after handlers that do not call [setGameData]. *)
Definition render (s : State) (w : World) : World := rendered false s w.

Definition issue (rqs : list Request) (w : World) : World :=
  {| st := st w; memo := memo w;
     requests := (requests w ++ rqs)%list; clock := clock w;
     timeouts := timeouts w; interval := interval w;
     restorations := restorations w |}.

Definition answer (k : nat) (w : World) : World :=
  {| st := st w; memo := memo w;
     requests := delete k (requests w); clock := clock w;
     timeouts := timeouts w; interval := interval w;
     restorations := restorations w |}.

(** Whether the continuation of [analyzePosition] calls [setGameData]:
    [if (response.data && gameData)]. *)
Definition stores (data : option PositionAnalysisData) (s : State) : bool :=
  match data, gameData s with
  | Some _, Some _ => true
  | _, _ => false
  end.

Inductive Event : Type :=
  | GoTo (moveIndex : Z)
  | MoveEffect
  | ToggleBestMove
  | ToggleAutoPlay
  | Tick
  | ShowMoveOnBoard (moveHighlight : MoveHighlight)
  | Elapse (ms : Z)
  | Resolve (k : nat) (data : option PositionAnalysisData)
  | Reject (k : nat).

(** Run the timeouts that are due at time [now], oldest first. *)
Fixpoint fire (now : Z) (ts : list (Z * Timeout)) (s : State) (n : nat)
    : option (State * list (Z * Timeout) * nat) :=
  match ts with
  | [] => Some (s, [], n)
  | (due, t) :: ts' =>
      if due <=? now then
        match timeoutFired t s with
        | Ok s' => fire now ts' s' (S n)
        | TypeError => None
        end
      else
        match fire now ts' s n with
        | Some (s', rest, n') => Some (s', (due, t) :: rest, n')
        | None => None
        end
  end.

(** One event.  [GoTo] is a call of [onMoveChange] by the controls;
    [MoveEffect] is the effect that calls [handleMoveChange(currentMove)]
    after a render, both through the memoised callback; [ToggleBestMove]
    and [ToggleAutoPlay] are the two buttons; [Tick] is the interval
    firing, possible only while an interval is set; [Elapse] lets time
    pass and runs the timeouts that fall due; [Resolve] and [Reject] end
    the [k]-th request in flight.  [None]: the event cannot happen, or its
    handler raised. *)
Definition step (e : Event) (w : World) : option World :=
  match e with
  | GoTo moveIndex =>
      match handleMoveChange (memo w) (st w) moveIndex with
      | Ok (s, rqs) => Some (issue rqs (render s w))
      | TypeError => None
      end
  | MoveEffect =>
      match handleMoveChange (memo w) (st w) (currentMove (st w)) with
      | Ok (s, rqs) => Some (issue rqs (render s w))
      | TypeError => None
      end
  | ToggleBestMove =>
      let '(s, rqs) := handleToggleBestMove (st w) in
      Some (issue rqs (render s w))
  | ToggleAutoPlay =>
      Some (render (setAutoPlay (negb (autoPlay (st w))) (st w)) w)
  | Tick =>
      match interval w with
      | Some iv => Some (render (intervalFired iv (st w)) w)
      | None => None
      end
  | ShowMoveOnBoard h =>
      let '(s, t) := handleShowMoveOnBoard (st w) h in
      let w := render s w in
      Some {| st := st w; memo := memo w;
              requests := requests w; clock := clock w;
              timeouts := (timeouts w ++ [(clock w + tm_delay t, t)])%list;
              interval := interval w; restorations := restorations w |}
  | Elapse ms =>
      if ms <? 0 then None
      else
        match fire (clock w + ms) (timeouts w) (st w) (restorations w) with
        | Some (s, rest, n) =>
            let w := render s w in
            Some {| st := st w; memo := memo w; requests := requests w;
                    clock := clock w + ms; timeouts := rest;
                    interval := interval w; restorations := n |}
        | None => None
        end
  | Resolve k data =>
      match requests w !! k with
      | Some rq =>
          Some (answer k
                  (rendered (stores data (st w))
                     (analysisResolved rq data (st w)) w))
      | None => None
      end
  | Reject k =>
      match requests w !! k with
      | Some _ => Some (answer k (render (analysisRejected (st w)) w))
      | None => None
      end
  end.

(** A run: the events of a list, one after the other. *)
Fixpoint run (es : list Event) (w : World) : option World :=
  match es with
  | [] => Some w
  | e :: es' =>
      match step e w with
      | Some w' => run es' w'
      | None => None
      end
  end.

Definition reachable (w0 w : World) : Prop :=
  exists es, run es w0 = Some w.

(** The world right after a game was loaded: [fetchGameData] has reset
    the navigation state, [handleMoveChange] was created anew for the new
    [gameData], nothing is in flight. *)
Definition loaded (g : ChessGame) (s : State) : World :=
  let s := setGameData (Some g) s in
  let s := setCurrentMove 0 s in
  let s := setMoveHighlight None s in
  let s := setSuggestedMoves noSuggestedMoves s in
  let s := setPreviousPositionEval None s in
  let s := setShowingBestMove false s in
  {| st := s; memo := showingBestMove s;
     requests := []; clock := 0; timeouts := [];
     interval := autoplayEffect s; restorations := 0 |}.

(** The requests of a world that are for ply [i]. *)
Definition pendingFor (i : Z) (w : World) : list Request :=
  filter (fun rq => rq_moveIndex rq = i) (requests w).

(** The NavigationState of the specification. *)
Record NavigationState : Type := mkNavigationState {
  ns_currentMove : Z;
  ns_moveHighlight : option MoveHighlight;
  ns_suggestedMoves : SuggestedMoves;
  ns_showingBestMove : bool;
  ns_previousPositionEval : option Q
}.

Definition navigation (s : State) : NavigationState :=
  {| ns_currentMove := currentMove s;
     ns_moveHighlight := moveHighlight s;
     ns_suggestedMoves := suggestedMoves s;
     ns_showingBestMove := showingBestMove s;
     ns_previousPositionEval := previousPositionEval s |}.

(** *** What the render shows of the evaluations *)

Definition getCurrentEvaluation (s : State) : option Q :=
  match gameData s with
  | Some g => pa_evaluation <$> analysisAt g (currentMove s)
  | None => None
  end.

(** The [MoveQualityIndicator] of the render: [None] when its guard
    ([currentMove > 0], a previous evaluation, a current evaluation) hides
    it. *)
Definition moveQualityShown (s : State) : Res (option MoveQuality) :=
  match gameData s with
  | None => Ok None
  | Some g =>
      if 0 <? currentMove s then
        match previousPositionEval s, getCurrentEvaluation s with
        | Some prevEval, Some currentEval =>
            match JS.index (moves g) (currentMove s - 1) with
            | Some move =>
                Ok (Some (Components.moveQualityIndicator currentEval
                            prevEval (String.eqb (md_color move) "white")))
            | None => TypeError
            end
        | _, _ => Ok None
        end
      else Ok None
  end.

End Home.

(** * The statements of the specification *)

(** Definitions that follow the words of the specification, to be compared
    with the program. *)

Module Spec.

(** A file letter [a]-[h] and a rank digit [1]-[8]. *)
Definition fileOk (c : ascii) : bool :=
  ((97 <=? nat_of_ascii c)%nat && (nat_of_ascii c <=? 104)%nat)%bool.

Definition rankOk (c : ascii) : bool :=
  ((49 <=? nat_of_ascii c)%nat && (nat_of_ascii c <=? 56)%nat)%bool.

(** A malformed square: fewer than two characters, a file letter outside
    [a]-[h], or a rank digit outside [1]-[8]. *)
Definition malformed (square : string) : bool :=
  match square with
  | String f (String r _) => negb (fileOk f) || negb (rankOk r)
  | _ => true
  end.

(** A pair of coordinates of the 8 x 8 grid. *)
Definition onBoard (p : Position) : Prop :=
  exists r c : Z,
    row p = Num r /\ col p = Num c /\ 0 <= r < 8 /\ 0 <= c < 8.

End Spec.

Module SpecFormat.

(** The mate distance [K = ceil((1000 - |score|) / 10)]. *)
Definition mateDistance (score : Q) : Z :=
  Qceiling ((1000 - Qabs score) / 10).

(** The mate marker: a sign, [M], and the distance. *)
Definition mateMarker (sign : string) (score : Q) : string :=
  sign +:+ "M" +:+ pretty (mateDistance score).

(** The signed decimal with two fraction digits: [+] before a positive
    value, the [-] of a negative value comes with its digits. *)
Definition signedDecimal (score : Q) : string :=
  (if Number.gt score 0 then "+" else "") +:+ Number.toFixed 2 score.

End SpecFormat.

Module SpecQuality.

Inductive Label : Type :=
  | Brilliant
  | Excellent
  | Good
  | BookEqual
  | Blunder
  | Mistake
  | Inaccuracy.

(** The threshold table of the specification, in its order: the first
    condition that holds decides. *)
Definition classify (evalAfter evalBefore : Q) : Label :=
  let gain := (evalBefore - evalAfter)%Q in
  if Number.gt gain 2 then Brilliant
  else if Number.gt gain 1 then Excellent
  else if Number.gt gain (5 # 10) then Good
  else if Number.lt (Qabs gain) (2 # 10) then BookEqual
  else if Number.lt gain (- 2) then Blunder
  else if Number.lt gain (- 1) then Mistake
  else if Number.lt gain (- (5 # 10)) then Inaccuracy
  else BookEqual.

(** The symbol column of the table. *)
Definition symbolOf (l : Label) : string :=
  match l with
  | Brilliant => "!!"
  | Excellent => "!"
  | Good => "!?"
  | BookEqual => "="
  | Blunder => "??"
  | Mistake => "?"
  | Inaccuracy => "?!"
  end.

(** What the program displays for each label of the table. *)
Definition display (l : Label) : MoveQuality :=
  match l with
  | Brilliant =>
      {| label := "Mossa geniale"; color := "text-purple-600";
         symbol := "!!" |}
  | Excellent =>
      {| label := "Mossa ottima"; color := "text-green-600";
         symbol := "!" |}
  | Good =>
      {| label := "Buona mossa"; color := "text-blue-600";
         symbol := "!?" |}
  | BookEqual =>
      {| label := "Mossa da manuale"; color := "text-gray-600";
         symbol := "=" |}
  | Blunder =>
      {| label := "Errore grave"; color := "text-red-700";
         symbol := "??" |}
  | Mistake =>
      {| label := "Errore"; color := "text-red-500"; symbol := "?" |}
  | Inaccuracy =>
      {| label := "Imprecisione"; color := "text-yellow-600";
         symbol := "?!" |}
  end.

End SpecQuality.

Module SpecOverlay.

(** The lists of an overlay, an absent list counting as empty. *)
Definition bestOf (o : SuggestedMoves) : list MoveHighlight :=
  default [] (best o).

Definition worstOf (o : SuggestedMoves) : list MoveHighlight :=
  default [] (worst o).

End SpecOverlay.

Module SpecHighlights.

(** The square keys the primary highlight occupies: origin, destination
    and, for a castling move, the two rook squares. *)
Definition primaryKeys (h : MoveHighlight) : list string :=
  [Components.fromKey h; Components.toKey h]
  ++ (if JS.truthy_ostr (castling h)
      then [Components.rookFromKey h; Components.rookToKey h]
      else []).

(** An entry that is the primary highlight [h]: [h] itself, or the copy
    of [h] marked as rook square of the castling. *)
Definition isPrimary (h v : MoveHighlight) : Prop :=
  v = h \/ v = Components.withRookCastling h.

(** The styling of the destination of the played move: red for a
    capture, green otherwise (yellow when origin and destination are one
    square), no suggestion border. *)
Definition primaryDestinationColors (h : MoveHighlight)
    : string * string :=
  (if String.eqb (Components.toKey h) (Components.fromKey h)
   then "bg-yellow-300"
   else if isCapture h then "bg-red-400" else "bg-green-400",
   "").

End SpecHighlights.

Module SpecNavigation.

(** The steps of the [goTo] transition, as the specification lists them. *)

(** (1) The snapshot of the evaluation of the outgoing ply, kept as it
    was when that ply has no analysis. *)
Definition snapshotOf (g : ChessGame) (outgoing : Z) (previous : option Q)
    : option Q :=
  match Home.analysisAt g outgoing with
  | Some a => Some (pa_evaluation a)
  | None => previous
  end.

(** (4) The primary highlight: from [moves[index - 1]] if [index > 0],
    else null. *)
Definition primaryOf (g : ChessGame) (index : Z) : option MoveHighlight :=
  if 0 <? index
  then Home.playedHighlight <$> JS.index (moves g) (index - 1)
  else None.

(** (6) The overlay: from the analysis available for the new ply, empty
    if there is none. *)
Definition overlayOf (showSuggestedMoves showingBestMove : bool)
    (g : ChessGame) (index : Z) : SuggestedMoves :=
  match Home.analysisAt g index with
  | Some a =>
      if showSuggestedMoves
      then Home.updateSuggestedMoves showSuggestedMoves showingBestMove
             (Some a)
      else noSuggestedMoves
  | None => noSuggestedMoves
  end.


(** The request [goTo] sends for ply [index]; its continuation reads the
    [showingBestMove] the memoised callback holds. *)
Definition requestFor (captured : bool) (s : Home.State) (fen : string)
    (index : Z) : Home.Request :=
  {| Home.rq_fen := Some fen; Home.rq_depth := 4;
     Home.rq_moveIndex := index;
     Home.rq_showSuggestedMoves := Home.showSuggestedMoves s;
     Home.rq_showingBestMove := captured |}.

End SpecNavigation.

Module SpecInvariant.

(** What holds in every world reached from a game [g] once loaded: the
    state holds a copy of [g] (the same moves, maybe more analyses), the
    current ply is in [0, N], and the interval is the one of the render. *)
Definition inv (g : ChessGame) (w : Home.World) : Prop :=
  (exists g', Home.gameData (Home.st w) = Some g' /\ moves g' = moves g)
  /\ 0 <= Home.currentMove (Home.st w) <= Home.moveCount g
  /\ Home.interval w = Home.autoplayEffect (Home.st w).

End SpecInvariant.

Module SpecCaptured.

(** The value of a piece by its name: pawn 1, knight and bishop 3, rook 5,
    queen 9, the king and any other name 0. *)
Definition value (name : string) : Z :=
  if String.eqb name "pawn" then 1
  else if String.eqb name "knight" then 3
  else if String.eqb name "bishop" then 3
  else if String.eqb name "rook" then 5
  else if String.eqb name "queen" then 9
  else 0.

(** The signed value a move adds to the material advantage: nothing for a
    move that is no capture, the value of the piece it names for a
    capture, added for a white move and subtracted otherwise.  There is
    none when the name is a member of [Object.prototype]. *)
Definition captureDelta (move : MoveDetail) : option Z :=
  if md_capture move then
    if JS.inherited (md_piece move) then None
    else if String.eqb (md_color move) "white"
    then Some (value (md_piece move))
    else Some (- value (md_piece move))
  else Some 0.

(** The place of a piece name in the list of captured pieces: queen,
    rook, bishop, knight, pawn, king, then every other name. *)
Definition rank (name : string) : Z :=
  if String.eqb name "queen" then 1
  else if String.eqb name "rook" then 2
  else if String.eqb name "bishop" then 3
  else if String.eqb name "knight" then 4
  else if String.eqb name "pawn" then 5
  else if String.eqb name "king" then 6
  else 99.

End SpecCaptured.

(** * A sample game *)

Module Sample.

Definition e4 : MoveDetail :=
  {| md_san := "e4"; md_uci := "e2e4"; md_from := "e2"; md_to := "e4";
     md_piece := "pawn"; md_color := "white"; md_capture := false;
     md_check := false; md_checkmate := false; md_moveNumber := 1;
     md_castling := None; md_promotion := None; md_is_best_move := None;
     md_evaluation := None |}.

Definition d5 : MoveDetail :=
  {| md_san := "d5"; md_uci := "d7d5"; md_from := "d7"; md_to := "d5";
     md_piece := "pawn"; md_color := "black"; md_capture := false;
     md_check := false; md_checkmate := false; md_moveNumber := 1;
     md_castling := None; md_promotion := None; md_is_best_move := None;
     md_evaluation := None |}.

Definition exd5 : MoveDetail :=
  {| md_san := "exd5"; md_uci := "e4d5"; md_from := "e4"; md_to := "d5";
     md_piece := "pawn"; md_color := "white"; md_capture := true;
     md_check := false; md_checkmate := false; md_moveNumber := 2;
     md_castling := None; md_promotion := None; md_is_best_move := None;
     md_evaluation := None |}.

Definition fens : list string :=
  [ "rnbqkbnr/pppppppp/8/8/8/8/PPPPPPPP/RNBQKBNR w KQkq - 0 1";
    "rnbqkbnr/pppppppp/8/8/4P3/8/PPPP1PPP/RNBQKBNR b KQkq - 0 1";
    "rnbqkbnr/ppp1pppp/8/3p4/4P3/8/PPPP1PPP/RNBQKBNR w KQkq - 0 2";
    "rnbqkbnr/ppp1pppp/8/3P4/8/8/PPPP1PPP/RNBQKBNR b KQkq - 0 2" ].

Definition candidate (uci san : string) (e : Q) : AnalysisMove :=
  {| am_uci := uci; am_san := san; am_evaluation := e |}.

(** Analyses of the starting position and of the position after 1. e4. *)
Definition analysis0 : PositionAnalysisData :=
  {| pa_evaluation := 3 # 10;
     bestMoves := [candidate "e2e4" "e4" (3 # 10);
                   candidate "d2d4" "d4" (3 # 10);
                   candidate "g1f3" "Nf3" (2 # 10)];
     worstMoves := Some [candidate "g2g4" "g4" (- (1))] |}.

Definition analysis1 : PositionAnalysisData :=
  {| pa_evaluation := 5 # 10;
     bestMoves := [candidate "e7e5" "e5" (4 # 10);
                   candidate "c7c5" "c5" (5 # 10)];
     worstMoves := Some [candidate "f7f6" "f6" (15 # 10)] |}.

(** The game as loaded without analysis, and with the first two plies
    analysed. *)
Definition game : ChessGame :=
  {| id := "136832121294"; moves := [e4; d5; exd5]; positions := fens;
     white := {| username := "white"; rating := 1500 |};
     black := {| username := "black"; rating := 1500 |};
     result := "1-0"; timeControl := "600"; analysis := None |}.

Definition analysedGame : ChessGame :=
  Home.withAnalysis game [Some analysis0; Some analysis1].

(** The initial values of the state variables of [Home]. *)
Definition initial : Home.State :=
  {| Home.gameUrl := "";
     Home.gameData := None;
     Home.currentMove := 0;
     Home.moveHighlight := None;
     Home.suggestedMoves := noSuggestedMoves;
     Home.loading := false;
     Home.error := None;
     Home.autoPlay := false;
     Home.playbackSpeed := 15 # 10;
     Home.analyzeGame := false;
     Home.analyzingPosition := false;
     Home.showSuggestedMoves := true;
     Home.showingBestMove := false;
     Home.previousPositionEval := None |}.

(** The user has ticked "Analizza la partita". *)
Definition analysing : Home.State :=
  {| Home.gameUrl := "";
     Home.gameData := None;
     Home.currentMove := 0;
     Home.moveHighlight := None;
     Home.suggestedMoves := noSuggestedMoves;
     Home.loading := false;
     Home.error := None;
     Home.autoPlay := false;
     Home.playbackSpeed := 15 # 10;
     Home.analyzeGame := true;
     Home.analyzingPosition := false;
     Home.showSuggestedMoves := true;
     Home.showingBestMove := false;
     Home.previousPositionEval := None |}.

(** The played move exd5 as primary highlight, and an overlay whose best
    suggestion (c4xd5) ends on the same square d5. *)
Definition primary : MoveHighlight := Home.playedHighlight exd5.

Definition overlay : SuggestedMoves :=
  {| best := Some [Home.bestHighlight 0 (candidate "c4d5" "cxd5" (1 # 2))];
     worst := Some [Home.worstHighlight (candidate "e6d5" "exd5" (- (1)))]
  |}.

End Sample.

Module SampleRuns.

(** The world after the events [es], from [w]. *)
Definition after (es : list Home.Event) (w : Home.World) : Home.World :=
  default w (Home.run es w).

(** The sample game loaded without analysis mode; with analysis mode and
    no analysis yet; with analysis mode and two plies analysed. *)
Definition plain : Home.World := Home.loaded Sample.game Sample.initial.

Definition analysing : Home.World :=
  Home.loaded Sample.game Sample.analysing.

Definition analysed : Home.World :=
  Home.loaded Sample.analysedGame Sample.analysing.

End SampleRuns.

Module SamplePreviews.

(** Two suggested moves of the position after 1. e4, as the analysis
    panel passes them to [onShowOnBoard]. *)
Definition first : MoveHighlight :=
  Home.bestHighlight 0 (Sample.candidate "e7e5" "e5" (4 # 10)).



End SamplePreviews.

Module SpecBoard.

(** The squares a rank string denotes: a digit stands for that many empty
    squares, any other character for one square holding it. *)
Fixpoint expand (chars : string) : list string :=
  match chars with
  | EmptyString => []
  | String char rest =>
      match JS.digitValue char with
      | Some d => (replicate (Z.to_nat d) EmptyString ++ expand rest)%list
      | None => String char EmptyString :: expand rest
      end
  end.

(** The row of a rank that denotes at most 8 squares: its squares, then
    empty squares up to 8. *)
Definition decodeRank (chars : string) : list (option string) :=
  (Some <$> expand chars)
  ++ replicate (8 - length (expand chars)) (Some EmptyString).

(** The number of occurrences of a character. *)
Fixpoint count (c : ascii) (s : string) : nat :=
  match s with
  | EmptyString => 0
  | String c' s' => ((if Ascii.eqb c' c then 1 else 0) + count c s')%nat
  end.

(** The six piece names. *)
Definition pieceNames : list string :=
  ["pawn"; "knight"; "bishop"; "rook"; "queen"; "king"].

End SpecBoard.

Module SpecMirror.

(** The label of the opposite change of evaluation. *)
Definition mirror (l : SpecQuality.Label) : SpecQuality.Label :=
  match l with
  | SpecQuality.Brilliant => SpecQuality.Blunder
  | SpecQuality.Excellent => SpecQuality.Mistake
  | SpecQuality.Good => SpecQuality.Inaccuracy
  | SpecQuality.BookEqual => SpecQuality.BookEqual
  | SpecQuality.Blunder => SpecQuality.Brilliant
  | SpecQuality.Mistake => SpecQuality.Excellent
  | SpecQuality.Inaccuracy => SpecQuality.Good
  end.

(** The labels from the worst to the best. *)
Definition grade (l : SpecQuality.Label) : Z :=
  match l with
  | SpecQuality.Blunder => 0
  | SpecQuality.Mistake => 1
  | SpecQuality.Inaccuracy => 2
  | SpecQuality.BookEqual => 3
  | SpecQuality.Good => 4
  | SpecQuality.Excellent => 5
  | SpecQuality.Brilliant => 6
  end.

End SpecMirror.

Module SpecKeys.

(** The square keys a suggested-move overlay may write: origin and
    destination of the best moves, destination of the worst moves. *)
Definition overlayKeys (suggestedMoves : SuggestedMoves) : list string :=
  (flat_map (fun move => [Components.fromKey move; Components.toKey move])
     (default [] (best suggestedMoves))
   ++ (Components.toKey <$> default [] (worst suggestedMoves)))%list.

(** The keys of the played move, none without a played move. *)
Definition primaryKeysOf (highlight : option MoveHighlight) : list string :=
  match highlight with
  | Some h => SpecHighlights.primaryKeys h
  | None => []
  end.

End SpecKeys.

Module SpecWorld.

(** Every pending timeout holds a copy of the loaded game [g] and a ply
    of that game. *)
Definition timeoutsOk (g : ChessGame) (w : Home.World) : Prop :=
  Forall
    (fun dt : Z * Home.Timeout =>
       exists g', Home.tm_gameData dt.2 = Some g'
                  /\ moves g' = moves g
                  /\ 0 <= Home.tm_currentMove dt.2 <= Home.moveCount g)
    (Home.timeouts w).

(** Ply [i] has an analysis in the table of the state. *)
Definition analysed (s : Home.State) (i : Z) : Prop :=
  exists g a, Home.gameData s = Some g /\ Home.analysisAt g i = Some a.

(** The quality shown for an unchanged evaluation. *)
Definition bookMove : MoveQuality :=
  {| label := "Mossa da manuale"; color := "text-gray-600"; symbol := "=" |}.

End SpecWorld.

(** * Properties *)

(** ** Sanity checks of the embedding on concrete inputs *)

Example algebraicToIndices_e4 :
  ChessUtils.algebraicToIndices "e4" = {| row := Num 4; col := Num 4 |}.
Proof. reflexivity. Qed.

Example algebraicToIndices_a8 :
  ChessUtils.algebraicToIndices "a8" = {| row := Num 0; col := Num 0 |}.
Proof. reflexivity. Qed.

Example toFixed_pos : Number.toFixed 2 (5 # 4) = "1.25".
Proof. vm_compute. reflexivity. Qed.

Example toFixed_tie : Number.toFixed 2 (1 # 200) = "0.01".
Proof. vm_compute. reflexivity. Qed.

Example toFixed_neg_small : Number.toFixed 2 (- (1 # 1000)) = "-0.00".
Proof. vm_compute. reflexivity. Qed.

Example toFixed_neg : Number.toFixed 2 (- (123 # 10)) = "-12.30".
Proof. vm_compute. reflexivity. Qed.

Example formatEvaluation_950 : Components.formatEvaluation 950 = "+M5".
Proof. vm_compute. reflexivity. Qed.

Example formatEvaluation_m995 : Components.formatEvaluation (- 995) = "-M1".
Proof. vm_compute. reflexivity. Qed.

Example formatEvaluation_dec : Components.formatEvaluation (3 # 4) = "+0.75".
Proof. vm_compute. reflexivity. Qed.

Example getMoveQuality_gain_2_2 :
  symbol (Components.getMoveQuality (- (12 # 10)) 1) = "!!".
Proof. vm_compute. reflexivity. Qed.

(** ** utils.ts: algebraicToIndices *)

Section AlgebraicToIndices.

Lemma parseInt_charAt_digit (c : ascii) (rest : string) (d : Z) :
  JS.digitValue c = Some d ->
  JS.parseInt (JS.charAt (String c rest) 0) = Num d.
Proof. intros H. cbn. rewrite H. reflexivity. Qed.

Lemma digitValue_range (c : ascii) (d : Z) :
  JS.digitValue c = Some d ->
  d = Z.of_nat (nat_of_ascii c) - 48 /\ 0 <= d <= 9.
Proof.
  unfold JS.digitValue. intros H.
  destruct (48 <=? nat_of_ascii c)%nat eqn:Hlo; [|discriminate].
  destruct (nat_of_ascii c <=? 57)%nat eqn:Hhi; [|discriminate].
  apply Nat.leb_le in Hlo, Hhi. cbn in H. injection H as <-. lia.
Qed.

(** On a well-formed square the result is the grid coordinate: row 0 is
    rank 8, column 0 is file [a]. *)
Lemma algebraicToIndices_wellformed (f r : ascii) (rest : string) :
  Spec.fileOk f = true -> Spec.rankOk r = true ->
  ChessUtils.algebraicToIndices (String f (String r rest))
  = {| row := Num (8 - (Z.of_nat (nat_of_ascii r) - 48));
       col := Num (Z.of_nat (nat_of_ascii f) - 97) |}
  /\ Spec.onBoard (ChessUtils.algebraicToIndices (String f (String r rest))).
Proof.
  unfold Spec.fileOk, Spec.rankOk. intros Hf Hr.
  apply andb_prop in Hf as [Hf1 Hf2]. apply andb_prop in Hr as [Hr1 Hr2].
  apply Nat.leb_le in Hf1, Hf2, Hr1, Hr2.
  assert (Hd : JS.digitValue r = Some (Z.of_nat (nat_of_ascii r - 48))).
  { unfold JS.digitValue.
    destruct (48 <=? nat_of_ascii r)%nat eqn:E1;
      [|apply Nat.leb_gt in E1; lia].
    destruct (nat_of_ascii r <=? 57)%nat eqn:E2;
      [|apply Nat.leb_gt in E2; lia].
    reflexivity. }
  assert (Heq : ChessUtils.algebraicToIndices (String f (String r rest))
                = {| row := Num (8 - (Z.of_nat (nat_of_ascii r) - 48));
                     col := Num (Z.of_nat (nat_of_ascii f) - 97) |}).
  { unfold ChessUtils.algebraicToIndices. cbn. rewrite Hd. cbn.
    change (Z.of_nat (nat_of_ascii "a")) with 97.
    do 3 f_equal. lia. }
  split; [exact Heq|]. rewrite Heq.
  exists (8 - (Z.of_nat (nat_of_ascii r) - 48)),
         (Z.of_nat (nat_of_ascii f) - 97).
  cbn. repeat split; lia.
Qed.

(** C9, as amended.  On a malformed square (fewer than two characters, a
    file letter outside a-h or a rank digit outside 1-8)
    [algebraicToIndices] raises nothing: it returns a pair, and that pair
    is not a coordinate of the board, one component being [NaN] or outside
    0..7. *)
Theorem algebraicToIndices_malformed (square : string) :
  Spec.malformed square = true ->
  exists p : Position,
    ChessUtils.algebraicToIndices square = p /\ ~ Spec.onBoard p.
Proof.
  intros Hbad. eexists. split; [reflexivity|].
  intros (r & c & Hrow & Hcol & Hr & Hc).
  destruct square as [|f [|rk rest]].
  - cbn in Hcol. discriminate.
  - cbn in Hrow. discriminate.
  - cbn in Hbad. apply orb_prop in Hbad as [Hbad|Hbad];
      apply negb_true_iff in Hbad.
    + unfold ChessUtils.algebraicToIndices in Hcol. cbn in Hcol.
      injection Hcol as <-.
      change (Z.of_nat (nat_of_ascii "a")) with 97 in Hc.
      unfold Spec.fileOk in Hbad. apply andb_false_iff in Hbad as [H|H];
        apply Nat.leb_gt in H; lia.
    + unfold ChessUtils.algebraicToIndices in Hrow. cbn in Hrow.
      destruct (JS.digitValue rk) as [d|] eqn:Hd; [|discriminate].
      cbn in Hrow. injection Hrow as <-.
      apply digitValue_range in Hd as [-> Hd].
      unfold Spec.rankOk in Hbad. apply andb_false_iff in Hbad as [H|H];
        apply Nat.leb_gt in H; lia.
Qed.

Lemma algebraicToIndices_malformed_witness :
  exists p : Position,
    ChessUtils.algebraicToIndices "i0" = p /\ ~ Spec.onBoard p.
Proof. apply (algebraicToIndices_malformed "i0"). reflexivity. Defined.

(** C9, as stated, fails: on the malformed square [z9] the function
    signals no error, it returns the pair (-1, 25); on the empty string
    it returns (NaN, NaN). *)
Lemma algebraicToIndices_returns_on_malformed :
  Spec.malformed "z9" = true
  /\ ChessUtils.algebraicToIndices "z9" = {| row := Num (-1); col := Num 25 |}
  /\ Spec.malformed "" = true
  /\ ChessUtils.algebraicToIndices "" = {| row := NaN; col := NaN |}.
Proof. repeat split. Qed.

End AlgebraicToIndices.

(** ** Comparisons of evaluations *)

Section NumberFacts.

Lemma lt_true (a b : Q) : Number.lt a b = true <-> (a < b)%Q.
Proof.
  unfold Number.lt. rewrite negb_true_iff.
  split; intros H.
  - apply Qnot_le_lt. intros Hle. apply Qle_bool_iff in Hle. congruence.
  - destruct (Qle_bool b a) eqn:E; [|reflexivity].
    apply Qle_bool_iff in E. exfalso. exact (Qlt_not_le _ _ H E).
Qed.

Lemma lt_false (a b : Q) : Number.lt a b = false <-> (b <= a)%Q.
Proof.
  unfold Number.lt. rewrite negb_false_iff. apply Qle_bool_iff.
Qed.

Lemma gt_true (a b : Q) : Number.gt a b = true <-> (b < a)%Q.
Proof. apply lt_true. Qed.

Lemma gt_false (a b : Q) : Number.gt a b = false <-> (a <= b)%Q.
Proof. apply lt_false. Qed.

End NumberFacts.

(** ** formatEvaluation *)

Section FormatEvaluation.

(** The two copies of [formatEvaluation] (components.tsx and
    PositionAnalysis.tsx) are the same function. *)
Lemma formatEvaluation_copies (evaluation : Q) :
  PositionAnalysisView.formatEvaluation evaluation
  = Components.formatEvaluation evaluation.
Proof. reflexivity. Qed.

Lemma formatEvaluation_positive_mate (evaluation : Q) :
  (100 < evaluation)%Q ->
  Components.formatEvaluation evaluation
  = SpecFormat.mateMarker "+" evaluation.
Proof.
  intros H. unfold Components.formatEvaluation, SpecFormat.mateMarker,
    SpecFormat.mateDistance.
  assert (H0 : (0 < evaluation)%Q) by lra.
  assert (Habs : (100 < Qabs evaluation)%Q).
  { rewrite Qabs_pos; lra. }
  apply gt_true in Habs. rewrite Habs.
  apply gt_true in H0. rewrite H0. reflexivity.
Qed.

Lemma formatEvaluation_negative_mate (evaluation : Q) :
  (evaluation < - (100))%Q ->
  Components.formatEvaluation evaluation
  = SpecFormat.mateMarker "-" evaluation.
Proof.
  intros H. unfold Components.formatEvaluation, SpecFormat.mateMarker,
    SpecFormat.mateDistance.
  assert (H0 : (evaluation <= 0)%Q) by lra.
  assert (Habs : (100 < Qabs evaluation)%Q).
  { rewrite Qabs_neg; lra. }
  apply gt_true in Habs. rewrite Habs.
  apply gt_false in H0. rewrite H0. reflexivity.
Qed.

Lemma formatEvaluation_decimal (evaluation : Q) :
  (Qabs evaluation <= 100)%Q ->
  Components.formatEvaluation evaluation
  = SpecFormat.signedDecimal evaluation.
Proof.
  intros H. unfold Components.formatEvaluation, SpecFormat.signedDecimal.
  apply gt_false in H. rewrite H. reflexivity.
Qed.

(** C7.  A score whose absolute value exceeds 100 is rendered as a mate
    marker, [+M] for a positive score and [-M] for a negative one,
    followed by K = ceil((1000 - |score|) / 10); a score of absolute value
    at most 100 is rendered as a signed decimal; 950 gives [+M5].  Both
    copies of the function do so. *)
Theorem formatEvaluation_mate_marker (score : Q) :
  ((100 < Qabs score)%Q ->
     ((0 < score)%Q /\
      Components.formatEvaluation score = SpecFormat.mateMarker "+" score)
     \/
     ((score < 0)%Q /\
      Components.formatEvaluation score = SpecFormat.mateMarker "-" score))
  /\ ((Qabs score <= 100)%Q ->
      Components.formatEvaluation score = SpecFormat.signedDecimal score)
  /\ PositionAnalysisView.formatEvaluation score
     = Components.formatEvaluation score
  /\ Components.formatEvaluation 950 = "+M5".
Proof.
  split; [|split; [|split]].
  - intros H. destruct (Qlt_le_dec 0 score) as [Hpos|Hneg].
    + left. split; [exact Hpos|].
      apply formatEvaluation_positive_mate.
      rewrite Qabs_pos in H; lra.
    + right. rewrite Qabs_neg in H by exact Hneg.
      split; [lra|]. apply formatEvaluation_negative_mate. lra.
  - apply formatEvaluation_decimal.
  - apply formatEvaluation_copies.
  - vm_compute. reflexivity.
Qed.

Lemma formatEvaluation_mate_marker_witness :
  Components.formatEvaluation 950 = SpecFormat.mateMarker "+" 950
  /\ Components.formatEvaluation (- (995)) = "-M1"
  /\ Components.formatEvaluation (- (5 # 4)) = "-1.25".
Proof.
  split; [|split].
  - destruct (formatEvaluation_mate_marker 950) as [H _].
    destruct H as [[_ H]|[Hneg _]].
    + reflexivity.
    + exact H.
    + discriminate Hneg.
  - destruct (formatEvaluation_mate_marker (- (995))) as [H _].
    destruct H as [[Hpos _]|[_ H]].
    + reflexivity.
    + discriminate Hpos.
    + rewrite H. vm_compute. reflexivity.
  - destruct (formatEvaluation_mate_marker (- (5 # 4))) as (_ & H & _).
    rewrite H.
    + vm_compute. reflexivity.
    + discriminate.
Defined.

End FormatEvaluation.

(** ** getMoveQuality *)

Section MoveQualityClassifier.

Lemma abs_band_true (d b : Q) :
  Number.lt (Qabs d) b = true <-> (- b < d /\ d < b)%Q.
Proof. rewrite lt_true. apply Qabs_Qlt_condition. Qed.

Lemma abs_band_false (d b : Q) :
  Number.lt (Qabs d) b = false <-> (d <= - b \/ b <= d)%Q.
Proof.
  rewrite lt_false. split.
  - intros H. destruct (Qlt_le_dec (- b) d) as [Hlo|Hlo]; [|left; exact Hlo].
    destruct (Qlt_le_dec d b) as [Hhi|Hhi]; [|right; exact Hhi].
    exfalso. apply (Qlt_not_le (Qabs d) b); [|exact H].
    apply Qabs_Qlt_condition. split; assumption.
  - intros [H|H].
    + pose proof (Qle_Qabs (- d)) as Habs. rewrite Qabs_opp in Habs. lra.
    + pose proof (Qle_Qabs d) as Habs. lra.
Qed.

(** Turn the recorded outcomes of the comparisons into inequalities. *)
Ltac comparisons :=
  repeat match goal with
    | H : Number.lt (Qabs _) _ = true |- _ => apply abs_band_true in H
    | H : Number.lt (Qabs _) _ = false |- _ => apply abs_band_false in H
    | H : Number.gt _ _ = true |- _ => apply gt_true in H
    | H : Number.gt _ _ = false |- _ => apply gt_false in H
    | H : Number.lt _ _ = true |- _ => apply lt_true in H
    | H : Number.lt _ _ = false |- _ => apply lt_false in H
    end.

Ltac branches :=
  repeat match goal with
    | |- context [if ?b then _ else _] => destruct b eqn:?
    end.

(** The program tests the band [|gain| < 0.2] first and the table tests
    it fourth; the band excludes the three conditions the table puts
    before it, so both orders give the same class. *)
Lemma getMoveQuality_table (evalAfter evalBefore : Q) :
  Components.getMoveQuality evalAfter evalBefore
  = SpecQuality.display (SpecQuality.classify evalAfter evalBefore).
Proof.
  unfold Components.getMoveQuality, SpecQuality.classify.
  generalize (evalBefore - evalAfter)%Q. intros gain. cbv zeta.
  branches; try reflexivity; exfalso; comparisons;
    repeat match goal with H : _ \/ _ |- _ => destruct H end; lra.
Qed.

Lemma display_symbol (l : SpecQuality.Label) :
  symbol (SpecQuality.display l) = SpecQuality.symbolOf l.
Proof. destruct l; reflexivity. Qed.

Lemma classify_brilliant (evalAfter evalBefore : Q) :
  (2 < evalBefore - evalAfter)%Q ->
  SpecQuality.classify evalAfter evalBefore = SpecQuality.Brilliant.
Proof.
  intros H. unfold SpecQuality.classify. cbv zeta.
  apply gt_true in H. rewrite H. reflexivity.
Qed.

Lemma classify_equal_band (evalAfter evalBefore : Q) :
  (- (2 # 10) <= evalBefore - evalAfter)%Q ->
  (evalBefore - evalAfter <= 2 # 10)%Q ->
  SpecQuality.classify evalAfter evalBefore = SpecQuality.BookEqual.
Proof.
  unfold SpecQuality.classify.
  generalize (evalBefore - evalAfter)%Q. intros gain Hlo Hhi. cbv zeta.
  branches; try reflexivity; exfalso; comparisons; lra.
Qed.

(** C2.  [getMoveQuality] returns the label and the symbol of the
    threshold table read in the order of the specification, with
    gain = evalBefore - evalAfter; a gain above 2 is brilliant [!!]
    whatever the signs of the two evaluations, and a gain in
    [-0.2, 0.2] is book/equal [=]. *)
Theorem getMoveQuality_threshold_table (evalAfter evalBefore : Q) :
  Components.getMoveQuality evalAfter evalBefore
  = SpecQuality.display (SpecQuality.classify evalAfter evalBefore)
  /\ symbol (Components.getMoveQuality evalAfter evalBefore)
     = SpecQuality.symbolOf (SpecQuality.classify evalAfter evalBefore)
  /\ ((2 < evalBefore - evalAfter)%Q ->
      SpecQuality.classify evalAfter evalBefore = SpecQuality.Brilliant
      /\ symbol (Components.getMoveQuality evalAfter evalBefore) = "!!")
  /\ ((- (2 # 10) <= evalBefore - evalAfter)%Q ->
      (evalBefore - evalAfter <= 2 # 10)%Q ->
      SpecQuality.classify evalAfter evalBefore = SpecQuality.BookEqual
      /\ symbol (Components.getMoveQuality evalAfter evalBefore) = "=").
Proof.
  split; [apply getMoveQuality_table|].
  split; [rewrite getMoveQuality_table; apply display_symbol|].
  split.
  - intros H. rewrite getMoveQuality_table.
    rewrite (classify_brilliant _ _ H). split; reflexivity.
  - intros Hlo Hhi. rewrite getMoveQuality_table.
    rewrite (classify_equal_band _ _ Hlo Hhi). split; reflexivity.
Qed.

Lemma getMoveQuality_threshold_table_witness :
  symbol (Components.getMoveQuality (- (12 # 10)) 1) = "!!"
  /\ symbol (Components.getMoveQuality 0 (- (2 # 10))) = "="
  /\ symbol (Components.getMoveQuality 0 (19 # 100)) = "=".
Proof.
  split; [|split].
  - destruct (getMoveQuality_threshold_table (- (12 # 10)) 1)
      as (_ & _ & H & _).
    apply H. reflexivity.
  - destruct (getMoveQuality_threshold_table 0 (- (2 # 10)))
      as (_ & _ & _ & H).
    apply H; discriminate.
  - destruct (getMoveQuality_threshold_table 0 (19 # 100))
      as (_ & _ & _ & H).
    apply H; discriminate.
Defined.

End MoveQualityClassifier.

(** ** updateSuggestedMoves *)

Section SuggestedMoveOverlay.

Lemma bestHighlight_piece (i : nat) (move : AnalysisMove) :
  piece (Home.bestHighlight i move) = JS.Own "P".
Proof. reflexivity. Qed.

Lemma worstHighlight_piece (move : AnalysisMove) :
  piece (Home.worstHighlight move) = JS.Own "P".
Proof. reflexivity. Qed.

Lemma Forall_imap_intro {A B : Type} (P : B -> Prop) (f : nat -> A -> B)
    (l : list A) :
  (forall i x, P (f i x)) -> Forall P (imap f l).
Proof.
  intros H. apply Forall_forall. intros y Hy.
  apply elem_of_lookup_imap in Hy as (i & x & -> & _). apply H.
Qed.

(** C10.  For every analysis entry and every value of the two toggles the
    overlay built by [updateSuggestedMoves] has at most 2 best highlights,
    at most 1 when showing-best-move is on; at most 1 worst highlight,
    none when showing-best-move is on; and every highlight of it carries
    the piece code [P] of the placeholder white pawn. *)
Theorem updateSuggestedMoves_overlay_invariant
    (showSuggestedMoves showingBestMove : bool)
    (analysisData : option PositionAnalysisData) :
  let overlay :=
    Home.updateSuggestedMoves showSuggestedMoves showingBestMove
      analysisData in
  (length (SpecOverlay.bestOf overlay)
   <= if showingBestMove then 1 else 2)%nat
  /\ (length (SpecOverlay.worstOf overlay)
      <= if showingBestMove then 0 else 1)%nat
  /\ Forall (fun h => piece h = JS.Own "P")
       (SpecOverlay.bestOf overlay ++ SpecOverlay.worstOf overlay)%list.
Proof.
  unfold Home.updateSuggestedMoves, SpecOverlay.bestOf, SpecOverlay.worstOf.
  destruct analysisData as [a|]; cbn -[Nat.min].
  2: { destruct showingBestMove; repeat split; try lia; constructor. }
  assert (Hworst : forall o : option (list AnalysisMove),
    (length match o with
            | Some (move :: _) => [Home.worstHighlight move]
            | _ => []
            end <= 1)%nat
    /\ Forall (fun h => piece h = JS.Own "P")
         match o with
         | Some (move :: _) => [Home.worstHighlight move]
         | _ => []
         end).
  { intros [[|m l]|]; cbn; split; try lia; repeat constructor. }
  destruct (Hworst (worstMoves a)) as [Hlen Hpiece].
  destruct showSuggestedMoves, showingBestMove; cbn -[Nat.min];
    rewrite ?length_imap, ?length_take;
    repeat split; try lia; try exact Hlen;
    try (apply Forall_app; split);
    try (apply Forall_imap_intro; intros; apply bestHighlight_piece);
    try exact Hpiece; constructor.
Qed.

(** With suggestions on and the toggle off, the overlay of an analysis
    with three best moves and two worst moves has two best highlights and
    one worst highlight; with the toggle on, one best highlight only. *)
Example updateSuggestedMoves_counts :
  let m := {| am_uci := "e2e4"; am_san := "e4"; am_evaluation := 1 # 4 |} in
  let a := {| pa_evaluation := 1 # 4; bestMoves := [m; m; m];
              worstMoves := Some [m; m] |} in
  (length (SpecOverlay.bestOf (Home.updateSuggestedMoves true false (Some a))),
   length (SpecOverlay.worstOf (Home.updateSuggestedMoves true false (Some a))),
   length (SpecOverlay.bestOf (Home.updateSuggestedMoves true true (Some a))),
   length (SpecOverlay.worstOf (Home.updateSuggestedMoves true true (Some a))))
  = (2, 1, 1, 0)%nat.
Proof. reflexivity. Qed.

End SuggestedMoveOverlay.

(** ** Chessboard: precedence of the primary highlight *)

Section HighlightPrecedence.

Implicit Types (m : gmap string MoveHighlight) (k : string).
Implicit Types (h move v : MoveHighlight).

Lemma insert_absent_keeps m (j : string) (x : MoveHighlight) k v :
  m !! j = None -> m !! k = Some v -> <[j:=x]> m !! k = Some v.
Proof.
  intros Hj Hk. rewrite lookup_insert_ne; [exact Hk|].
  intros ->. congruence.
Qed.

Lemma addBest_keeps m move k v :
  m !! k = Some v -> Components.addBest m move !! k = Some v.
Proof.
  intros Hk. unfold Components.addBest.
  destruct (m !! Components.fromKey move) eqn:Hfrom.
  - destruct (m !! Components.toKey move) eqn:Hto; [exact Hk|].
    apply insert_absent_keeps; assumption.
  - pose proof (insert_absent_keeps m _
      (Components.withFromBestMove move) k v Hfrom Hk) as Hk'.
    destruct (<[Components.fromKey move:=Components.withFromBestMove move]>
                m !! Components.toKey move) eqn:Hto; [exact Hk'|].
    apply insert_absent_keeps; assumption.
Qed.

Lemma addWorst_keeps m move k v :
  m !! k = Some v -> Components.addWorst m move !! k = Some v.
Proof.
  intros Hk. unfold Components.addWorst.
  destruct (m !! Components.toKey move) eqn:Hto; [exact Hk|].
  apply insert_absent_keeps; assumption.
Qed.

Lemma forEach_keeps
    (f : gmap string MoveHighlight -> MoveHighlight ->
         gmap string MoveHighlight)
    (l : option (list MoveHighlight)) m k v :
  (forall m' move, m' !! k = Some v -> f m' move !! k = Some v) ->
  m !! k = Some v -> Components.forEach f l m !! k = Some v.
Proof.
  intros Hf. destruct l as [l|]; [|trivial]. cbn.
  revert m. induction l as [|x l IH]; intros m Hk; cbn; [exact Hk|].
  apply IH, Hf, Hk.
Qed.

(** First writer wins: an entry present before the suggested moves are
    added is the entry of the final map. *)
Lemma allHighlights_keeps (highlight : option MoveHighlight)
    (suggestedMoves : SuggestedMoves) k v :
  Components.primaryHighlights highlight !! k = Some v ->
  Components.allHighlights highlight suggestedMoves !! k = Some v.
Proof.
  intros Hk. unfold Components.allHighlights.
  apply forEach_keeps; [intros; by apply addWorst_keeps|].
  apply forEach_keeps; [intros; by apply addBest_keeps|].
  exact Hk.
Qed.

(** Every key of the primary highlight has an entry after the first
    phase, and that entry is the primary highlight. *)
Lemma primaryHighlights_entries h k :
  k ∈ SpecHighlights.primaryKeys h ->
  exists v, Components.primaryHighlights (Some h) !! k = Some v
            /\ SpecHighlights.isPrimary h v.
Proof.
  unfold SpecHighlights.primaryKeys, Components.primaryHighlights,
    SpecHighlights.isPrimary.
  intros Hk. destruct (JS.truthy_ostr (castling h)); set_unfold in Hk;
    rewrite !lookup_insert; repeat case_decide; eauto;
    exfalso; intuition congruence.
Qed.

(** The colours of the destination square of the played move do not
    depend on the suggested moves. *)
Lemma squareColors_primary_destination h
    (suggestedMoves : SuggestedMoves) (rowIndex colIndex : nat)
    (piece : string) :
  Components.squareKey (Num (Z.of_nat rowIndex)) (Num (Z.of_nat colIndex))
  = Components.toKey h ->
  Components.squareColors (Some h) suggestedMoves rowIndex colIndex piece
  = SpecHighlights.primaryDestinationColors h.
Proof.
  intros Hkey. unfold Components.squareColors. rewrite Hkey.
  destruct (primaryHighlights_entries h (Components.toKey h))
    as (v & Hv & _).
  { unfold SpecHighlights.primaryKeys. set_solver. }
  rewrite (allHighlights_keeps _ suggestedMoves _ _ Hv).
  unfold SpecHighlights.primaryDestinationColors. cbn.
  rewrite String.eqb_refl, andb_false_r.
  destruct (String.eqb (Components.toKey h) (Components.fromKey h));
    reflexivity.
Qed.

(** C6.  The primary highlight is inserted first and no suggested move
    overwrites it: at every square key of the primary highlight (origin,
    destination, rook squares of a castling) the entry of the final map
    is the entry the primary highlight wrote; and the destination square
    of the played move is coloured as such (red for a capture, green
    otherwise), whatever the best and worst suggested moves are. *)
Theorem primary_highlight_never_overwritten h
    (suggestedMoves : SuggestedMoves) :
  (forall k, k ∈ SpecHighlights.primaryKeys h ->
     exists v,
       Components.primaryHighlights (Some h) !! k = Some v
       /\ Components.allHighlights (Some h) suggestedMoves !! k = Some v
       /\ SpecHighlights.isPrimary h v)
  /\ (forall (rowIndex colIndex : nat) (piece : string),
        Components.squareKey (Num (Z.of_nat rowIndex))
          (Num (Z.of_nat colIndex)) = Components.toKey h ->
        Components.squareColors (Some h) suggestedMoves
          rowIndex colIndex piece
        = SpecHighlights.primaryDestinationColors h).
Proof.
  split.
  - intros k Hk.
    destruct (primaryHighlights_entries h k Hk) as (v & Hv & Hprim).
    exists v. split; [exact Hv|]. split; [|exact Hprim].
    apply allHighlights_keeps, Hv.
  - intros. by apply squareColors_primary_destination.
Qed.

End HighlightPrecedence.

Section HighlightPrecedenceExample.

Example sample_destination_key :
  Components.toKey Sample.primary = "3-3"
  /\ Components.toKey (Home.bestHighlight 0
       (Sample.candidate "c4d5" "cxd5" (1 # 2))) = "3-3".
Proof. split; vm_compute; reflexivity. Qed.

(** The suggestion c4xd5 ends on d5 like the played move exd5: the entry
    of d5 stays the played move, drawn in the capture colour. *)
Example sample_destination_stays_primary :
  Components.allHighlights (Some Sample.primary) Sample.overlay !! "3-3"
  = Some Sample.primary
  /\ Components.squareColors (Some Sample.primary) Sample.overlay 3 3 "P"
     = ("bg-red-400", "").
Proof. split; vm_compute; reflexivity. Qed.

Lemma primary_highlight_never_overwritten_witness :
  (exists v,
     Components.primaryHighlights (Some Sample.primary) !! "3-3" = Some v
     /\ Components.allHighlights (Some Sample.primary) Sample.overlay
          !! "3-3" = Some v
     /\ SpecHighlights.isPrimary Sample.primary v)
  /\ Components.squareColors (Some Sample.primary) Sample.overlay 3 3 "P"
     = SpecHighlights.primaryDestinationColors Sample.primary.
Proof.
  destruct (primary_highlight_never_overwritten Sample.primary
              Sample.overlay) as [Hentry Hcolors].
  split.
  - apply (Hentry "3-3"). vm_compute. right. left.
  - apply (Hcolors 3 3 "P")%nat. vm_compute. reflexivity.
Defined.

End HighlightPrecedenceExample.

(** ** handleMoveChange *)

Section GoTo.

Implicit Types (s : Home.State) (g : ChessGame) (i : Z) (captured : bool).

Lemma index_in_range {A : Type} (l : list A) (j : Z) :
  0 <= j < Z.of_nat (length l) -> exists x, JS.index l j = Some x.
Proof.
  intros Hj. unfold JS.index.
  destruct (j <? 0) eqn:E; [apply Z.ltb_lt in E; lia|].
  apply lookup_lt_is_Some. lia.
Qed.

(** The guard of [handleMoveChange]: an index outside [0, N] returns at
    once. *)
Lemma handleMoveChange_guard captured s g i :
  Home.gameData s = Some g ->
  i < 0 \/ Home.moveCount g < i ->
  Home.handleMoveChange captured s i = Ok (s, []).
Proof.
  intros Hg Hout. unfold Home.handleMoveChange. rewrite Hg.
  destruct Hout as [H|H].
  - apply Z.ltb_lt in H. rewrite H. reflexivity.
  - apply Z.ltb_lt in H. rewrite H, orb_true_r. reflexivity.
Qed.

(** An index in [0, N]: the call returns, and the state it returns is
    the one the six steps of the transition describe; the overlay is built
    for the [showingBestMove] the callback holds. *)
Lemma handleMoveChange_in_range captured s g i :
  Home.gameData s = Some g ->
  0 <= i <= Home.moveCount g ->
  exists s' rqs,
    Home.handleMoveChange captured s i = Ok (s', rqs)
    /\ Home.gameData s' = Some g
    /\ Home.currentMove s' = i
    /\ Home.showingBestMove s' = false
    /\ Home.moveHighlight s' = SpecNavigation.primaryOf g i
    /\ Home.suggestedMoves s'
       = SpecNavigation.overlayOf (Home.showSuggestedMoves s) captured g i
    /\ Home.previousPositionEval s'
       = SpecNavigation.snapshotOf g (Home.currentMove s)
           (Home.previousPositionEval s)
    /\ Home.showSuggestedMoves s' = Home.showSuggestedMoves s
    /\ Home.analyzeGame s' = Home.analyzeGame s
    /\ Home.autoPlay s' = Home.autoPlay s.
Proof.
  intros Hg [Hlo Hhi]. unfold Home.handleMoveChange. rewrite Hg.
  assert (E1 : (i <? 0) = false) by (apply Z.ltb_ge; lia).
  assert (E2 : (Home.moveCount g <? i) = false) by (apply Z.ltb_ge; lia).
  rewrite E1, E2. cbn [orb].
  unfold SpecNavigation.primaryOf, SpecNavigation.overlayOf,
    SpecNavigation.snapshotOf, Home.analyzePosition.
  destruct (0 <? i) eqn:Epos.
  - apply Z.ltb_lt in Epos.
    destruct (index_in_range (moves g) (i - 1)) as [move Hmove].
    { unfold Home.moveCount in Hhi. lia. }
    rewrite Hmove. cbn [Home.gameData Home.setShowingBestMove]. rewrite Hg.
    destruct (Home.analysisAt g (Home.currentMove s));
      destruct (Home.analysisAt g i);
      destruct (Home.showSuggestedMoves s) eqn:Eshow;
      destruct (JS.index (positions g) i) as [fen|];
      try destruct (Home.analyzeGame s && JS.truthy_str fen)%bool;
      eexists _, _; (split; [reflexivity|]); cbn;
      rewrite ?Eshow; repeat split; assumption.
  - destruct (Home.analysisAt g (Home.currentMove s));
      destruct (Home.analysisAt g i);
      destruct (Home.showSuggestedMoves s) eqn:Eshow;
      eexists _, _; (split; [reflexivity|]); cbn;
      rewrite ?Eshow; repeat split; assumption.
Qed.

(** [handleMoveChange] raises on no state and no index. *)
Lemma handleMoveChange_total captured s i :
  exists s' rqs, Home.handleMoveChange captured s i = Ok (s', rqs).
Proof.
  destruct (Home.gameData s) as [g|] eqn:Hg.
  - destruct (Z_lt_le_dec i 0) as [Hneg|Hnn].
    { exists s, []. apply (handleMoveChange_guard captured s g);
        [exact Hg|lia]. }
    destruct (Z_lt_le_dec (Home.moveCount g) i) as [Hbig|Hle].
    { exists s, []. apply (handleMoveChange_guard captured s g);
        [exact Hg|lia]. }
    destruct (handleMoveChange_in_range captured s g i Hg)
      as (s' & rqs & H & _); [lia|]. eauto.
  - exists s, []. unfold Home.handleMoveChange. rewrite Hg. reflexivity.
Qed.

(** C1, as amended.  For a loaded game with N moves and an index outside
    [0, N], [handleMoveChange] raises no error and does nothing: the state
    it returns is the state it was called in and no request is sent.  The
    index is not clamped. *)
Theorem handleMoveChange_out_of_range_noop captured s g i :
  Home.gameData s = Some g ->
  i < 0 \/ Home.moveCount g < i ->
  Home.handleMoveChange captured s i = Ok (s, [])
  /\ forall s' rqs,
       Home.handleMoveChange captured s i = Ok (s', rqs) ->
       Home.navigation s' = Home.navigation s.
Proof.
  intros Hg Hout.
  pose proof (handleMoveChange_guard captured s g i Hg Hout) as H.
  split; [exact H|]. intros s' rqs H'. rewrite H in H'.
  injection H' as <- _. reflexivity.
Qed.

Lemma handleMoveChange_out_of_range_noop_witness :
  let w := SampleRuns.after [Home.GoTo 2] SampleRuns.plain in
  Home.handleMoveChange (Home.memo w) (Home.st w) (- 5) = Ok (Home.st w, [])
  /\ Home.handleMoveChange (Home.memo w) (Home.st w) (3 + 5)
     = Ok (Home.st w, []).
Proof.
  split.
  - apply (handleMoveChange_out_of_range_noop _ _ Sample.game (- 5)).
    + reflexivity.
    + left. reflexivity.
  - apply (handleMoveChange_out_of_range_noop _ _ Sample.game (3 + 5)).
    + reflexivity.
    + right. reflexivity.
Defined.

(** C1, as stated, fails.  The sample game has N = 3 moves; at ply 2,
    [goTo(-5)] leaves the current ply at 2 where [goTo(0)] moves it to 0,
    and [goTo(N + 5)] leaves it at 2 where [goTo(N)] moves it to 3. *)
Lemma handleMoveChange_does_not_clamp :
  let w := SampleRuns.after [Home.GoTo 2] SampleRuns.plain in
  exists below zero above last,
    Home.handleMoveChange (Home.memo w) (Home.st w) (- 5) = Ok (below, [])
    /\ Home.handleMoveChange (Home.memo w) (Home.st w) 0 = Ok (zero, [])
    /\ Home.handleMoveChange (Home.memo w) (Home.st w) (3 + 5)
       = Ok (above, [])
    /\ Home.handleMoveChange (Home.memo w) (Home.st w) 3 = Ok (last, [])
    /\ Home.currentMove below = 2 /\ Home.currentMove zero = 0
    /\ Home.currentMove above = 2 /\ Home.currentMove last = 3
    /\ Home.navigation below <> Home.navigation zero
    /\ Home.navigation above <> Home.navigation last.
Proof.
  cbv zeta. eexists _, _, _, _.
  repeat (split; [vm_compute; reflexivity|]).
  split; intros H; apply (f_equal Home.ns_currentMove) in H;
    vm_compute in H; discriminate H.
Qed.

End GoTo.

(** ** handleMoveChange twice in a row *)

Section GoToTwice.

Implicit Types (s : Home.State) (g : ChessGame) (i : Z) (w : Home.World).





(** The toggle is no dependency of the memoised callback.  In the sample
    game with plies 0 and 1 analysed, after [goTo(1)], its effect and the
    best-move button, the state has the toggle on while the callback still
    holds the value false of the render that created it: the next
    [goTo(0)] builds the overlay with two best moves and a worst one. *)
Example handleMoveChange_reads_held_toggle :
  exists w w',
    Home.run [Home.MoveEffect; Home.GoTo 1; Home.MoveEffect;
              Home.ToggleBestMove] SampleRuns.analysed = Some w
    /\ Home.showingBestMove (Home.st w) = true
    /\ Home.memo w = false
    /\ Home.step (Home.GoTo 0) w = Some w'
    /\ length (SpecOverlay.bestOf (Home.suggestedMoves (Home.st w')))
       = 2%nat
    /\ length (SpecOverlay.worstOf (Home.suggestedMoves (Home.st w')))
       = 1%nat.
Proof.
  eexists _, _.
  repeat (split; [vm_compute; reflexivity|]). vm_compute. reflexivity.
Qed.

End GoToTwice.

(** ** Evaluation requests *)

Section EvaluationRequests.

Implicit Types (s : Home.State) (g : ChessGame) (i : Z) (w : Home.World).

Lemma moveCount_withAnalysis g table :
  Home.moveCount (Home.withAnalysis g table) = Home.moveCount g.
Proof. reflexivity. Qed.

(** The requests of one call, by the content of the table. *)
Lemma handleMoveChange_requests (captured : bool) s g i fen :
  Home.gameData s = Some g ->
  Home.analyzeGame s = true ->
  0 < i <= Home.moveCount g ->
  JS.index (positions g) i = Some fen ->
  JS.truthy_str fen = true ->
  exists s',
    Home.handleMoveChange captured s i
    = Ok (s', match Home.analysisAt g i with
              | Some _ => []
              | None => [SpecNavigation.requestFor captured s fen i]
              end).
Proof.
  intros Hg Han [Hlo Hhi] Hfen Htruthy. unfold Home.handleMoveChange.
  rewrite Hg.
  assert (E1 : (i <? 0) = false) by (apply Z.ltb_ge; lia).
  assert (E2 : (Home.moveCount g <? i) = false) by (apply Z.ltb_ge; lia).
  assert (E3 : (0 <? i) = true) by (apply Z.ltb_lt; lia).
  rewrite E1, E2, E3. cbn [orb].
  destruct (index_in_range (moves g) (i - 1)) as [move Hmove].
  { unfold Home.moveCount in Hhi. lia. }
  rewrite Hmove, Hfen, Han, Htruthy. cbn [andb].
  unfold Home.analyzePosition.
  cbn [Home.gameData Home.setShowingBestMove]. rewrite Hg.
  destruct (Home.analysisAt g i); eexists; reflexivity.
Qed.

Lemma index_store (table : list (option PositionAnalysisData)) i
    (data : PositionAnalysisData) :
  0 <= i -> JS.index (Home.store table i data) i = Some (Some data).
Proof.
  intros Hi. unfold Home.store, JS.index.
  assert (E : (i <? 0) = false) by (apply Z.ltb_ge; lia).
  rewrite E. apply list_lookup_insert_eq.
  rewrite length_app, length_replicate. lia.
Qed.

(** The response, when it arrives, is stored in the slot of its ply. *)
Lemma analysisResolved_merges (rq : Home.Request)
    (data : PositionAnalysisData) s g :
  Home.gameData s = Some g ->
  0 <= Home.rq_moveIndex rq ->
  exists table,
    Home.gameData (Home.analysisResolved rq (Some data) s)
    = Some (Home.withAnalysis g table)
    /\ Home.analysisAt (Home.withAnalysis g table) (Home.rq_moveIndex rq)
       = Some data
    /\ Home.analyzeGame (Home.analysisResolved rq (Some data) s)
       = Home.analyzeGame s.
Proof.
  intros Hg Hi. unfold Home.analysisResolved. rewrite Hg.
  exists (Home.store (default [] (analysis g)) (Home.rq_moveIndex rq) data).
  split; [|split].
  - destruct (Home.rq_showSuggestedMoves rq || Home.rq_showingBestMove rq)%bool;
      reflexivity.
  - unfold Home.analysisAt. cbn. rewrite index_store by exact Hi.
    reflexivity.
  - destruct (Home.rq_showSuggestedMoves rq || Home.rq_showingBestMove rq)%bool;
      reflexivity.
Qed.

(** C3, as amended.  With analysis mode on, a ply [i > 0] in range and
    its position at hand, [goTo(i)] looks at the table only: it sends no
    request when the table holds an analysis for ply [i], and one more
    request for ply [i] when it holds none, whatever requests are already
    in flight.  Once the response of a request for ply [i] is stored,
    [goTo(i)] sends nothing. *)
Theorem goTo_requests_by_table w g i fen :
  Home.gameData (Home.st w) = Some g ->
  Home.analyzeGame (Home.st w) = true ->
  0 < i <= Home.moveCount g ->
  JS.index (positions g) i = Some fen ->
  JS.truthy_str fen = true ->
  (exists w',
     Home.step (Home.GoTo i) w = Some w'
     /\ match Home.analysisAt g i with
        | Some _ => Home.requests w' = Home.requests w
        | None =>
            Home.requests w'
            = (Home.requests w
               ++ [SpecNavigation.requestFor (Home.memo w) (Home.st w)
                     fen i])%list
            /\ Home.pendingFor i w'
               = (Home.pendingFor i w
                  ++ [SpecNavigation.requestFor (Home.memo w) (Home.st w)
                        fen i])%list
        end)
  /\ (forall (k : nat) (rq : Home.Request) (data : PositionAnalysisData),
        Home.requests w !! k = Some rq ->
        Home.rq_moveIndex rq = i ->
        exists w1 w2,
          Home.step (Home.Resolve k (Some data)) w = Some w1
          /\ Home.step (Home.GoTo i) w1 = Some w2
          /\ Home.requests w2 = Home.requests w1).
Proof.
  intros Hg Han Hi Hfen Htruthy. split.
  - destruct (handleMoveChange_requests (Home.memo w) _ g i fen Hg Han Hi
                Hfen Htruthy) as [s' Hs'].
    cbn. rewrite Hs'. eexists. split; [reflexivity|].
    destruct (Home.analysisAt g i); cbn.
    + apply app_nil_r.
    + split; [reflexivity|].
      unfold Home.pendingFor. cbn. rewrite filter_app. f_equal.
      rewrite filter_cons_True by reflexivity. reflexivity.
  - intros k rq data Hk Hrq. cbn. rewrite Hk.
    destruct (analysisResolved_merges rq data (Home.st w) g Hg)
      as (table & Hg' & Hat & Han'); [lia|].
    rewrite Hrq in Hat.
    set (w1 := Home.answer k
                 (Home.rendered (Home.stores (Some data) (Home.st w))
                    (Home.analysisResolved rq (Some data) (Home.st w)) w)).
    destruct (handleMoveChange_requests (Home.memo w1) (Home.st w1)
                (Home.withAnalysis g table) i fen)
      as [s' Hs']; try assumption.
    { cbn [w1 Home.st Home.answer Home.rendered]. rewrite Han'. exact Han. }
    rewrite Hat in Hs'.
    exists w1. eexists. split; [reflexivity|].
    cbn [Home.step]. rewrite Hs'.
    split; [reflexivity|]. cbn. apply app_nil_r.
Qed.

Lemma goTo_requests_by_table_witness :
  exists w',
    Home.step (Home.GoTo 1)
      (SampleRuns.after [Home.GoTo 1] SampleRuns.analysing) = Some w'
    /\ length (Home.pendingFor 1 w') = 2%nat.
Proof.
  destruct (goTo_requests_by_table
              (SampleRuns.after [Home.GoTo 1] SampleRuns.analysing)
              Sample.game 1
              "rnbqkbnr/pppppppp/8/8/4P3/8/PPPP1PPP/RNBQKBNR b KQkq - 0 1")
    as [(w' & Hstep & Hreq & Hpend) _].
  - reflexivity.
  - reflexivity.
  - split; [reflexivity|discriminate].
  - reflexivity.
  - reflexivity.
  - exists w'. split; [exact Hstep|]. rewrite Hpend.
    rewrite length_app. reflexivity.
Defined.

(** C3, as stated, fails.  In the sample game with analysis mode on and
    nothing analysed, two [goTo(1)] in a row leave two requests for ply 1
    in flight; so does one [goTo(1)] followed by the effect that calls
    [handleMoveChange(currentMove)], and so does [goTo(1)], [goTo(2)],
    [goTo(1)].  No response has arrived in between: the table is still
    absent. *)
Lemma goTo_duplicates_pending_request :
  (exists w,
     Home.run [Home.GoTo 1; Home.GoTo 1] SampleRuns.analysing = Some w
     /\ Home.gameData (Home.st w) = Some Sample.game
     /\ length (Home.pendingFor 1 w) = 2%nat)
  /\ (exists w,
        Home.run [Home.GoTo 1; Home.MoveEffect] SampleRuns.analysing
        = Some w
        /\ length (Home.pendingFor 1 w) = 2%nat)
  /\ (exists w,
        Home.run [Home.GoTo 1; Home.GoTo 2; Home.GoTo 1]
          SampleRuns.analysing = Some w
        /\ length (Home.pendingFor 1 w) = 2%nat
        /\ length (Home.pendingFor 2 w) = 1%nat).
Proof.
  split; [|split]; eexists;
    repeat (split; [vm_compute; reflexivity|]); vm_compute; reflexivity.
Qed.

End EvaluationRequests.

(** ** handleShowMoveOnBoard *)

Section Preview.

Implicit Types (s : Home.State) (g : ChessGame) (w : Home.World).

(** The restored highlight is the played-move highlight without its
    evaluation. *)
Lemma restoredHighlight_playedHighlight (move : MoveDetail) :
  md_evaluation move = None ->
  Home.restoredHighlight move = Home.playedHighlight move.
Proof.
  intros H. unfold Home.restoredHighlight, Home.playedHighlight.
  rewrite H. reflexivity.
Qed.





End Preview.

(** ** Autoplay *)

Section Autoplay.

Implicit Types (s : Home.State) (g : ChessGame) (w : Home.World).

(** After any event the interval is the one the effect sets for the
    state of the render. *)
Lemma step_interval (e : Home.Event) w w' :
  Home.step e w = Some w' ->
  Home.interval w' = Home.autoplayEffect (Home.st w').
Proof.
  destruct e; cbn; intros H.
  - destruct (Home.handleMoveChange (Home.memo w) (Home.st w) moveIndex)
      as [[s rqs]|]; [|discriminate]. injection H as <-. reflexivity.
  - destruct (Home.handleMoveChange (Home.memo w) (Home.st w)
                (Home.currentMove (Home.st w)))
      as [[s rqs]|]; [|discriminate]. injection H as <-. reflexivity.
  - destruct (Home.handleToggleBestMove (Home.st w)) as [s rqs].
    injection H as <-. reflexivity.
  - injection H as <-. reflexivity.
  - destruct (Home.interval w); [|discriminate].
    injection H as <-. reflexivity.
  - injection H as <-. reflexivity.
  - destruct (ms <? 0); [discriminate|].
    destruct (Home.fire _ _ _ _) as [[[s rest] n]|]; [|discriminate].
    injection H as <-. reflexivity.
  - destruct (Home.requests w !! k); [|discriminate].
    injection H as <-. reflexivity.
  - destruct (Home.requests w !! k); [|discriminate].
    injection H as <-. reflexivity.
Qed.

(** A tick happens only while autoplay is on below the last ply; it
    advances the ply by exactly one, not past the last ply, and leaves
    the autoplay flag set: the branch of the callback that clears the
    flag needs [prev >= N], and no interval is set for such a render. *)
Lemma tick_advances w w' :
  Home.interval w = Home.autoplayEffect (Home.st w) ->
  Home.step Home.Tick w = Some w' ->
  exists g,
    Home.gameData (Home.st w) = Some g
    /\ Home.autoPlay (Home.st w) = true
    /\ Home.currentMove (Home.st w') = Home.currentMove (Home.st w) + 1
    /\ Home.currentMove (Home.st w') <= Home.moveCount g
    /\ Home.autoPlay (Home.st w') = true.
Proof.
  intros Hinv. cbn. rewrite Hinv. unfold Home.autoplayEffect.
  destruct (Home.gameData (Home.st w)) as [g|] eqn:Hg; [|discriminate].
  destruct (Home.autoPlay (Home.st w)) eqn:Hplay; [|discriminate].
  destruct (Home.currentMove (Home.st w) <? Home.moveCount g) eqn:Hlt;
    [|discriminate].
  cbn. intros H. injection H as <-. exists g.
  apply Z.ltb_lt in Hlt. unfold Home.intervalFired. cbn.
  destruct (Home.moveCount g <=? Home.currentMove (Home.st w)) eqn:Hge.
  { apply Z.leb_le in Hge. lia. }
  cbn. repeat split; try assumption; lia.
Qed.

(** X22.  Disabling autoplay clears the interval: no tick can follow. *)
Lemma pause_cancels w :
  Home.autoPlay (Home.st w) = true ->
  exists w',
    Home.step Home.ToggleAutoPlay w = Some w'
    /\ Home.autoPlay (Home.st w') = false
    /\ Home.interval w' = None
    /\ Home.step Home.Tick w' = None.
Proof.
  intros Hplay. eexists. cbn. split; [reflexivity|].
  rewrite Hplay. cbn. unfold Home.autoplayEffect. cbn.
  destruct (Home.gameData (Home.st w)); repeat split; reflexivity.
Qed.

(** At the last ply no interval is set, whatever the flag says. *)
Lemma no_interval_at_last_ply s g :
  Home.gameData s = Some g ->
  Home.moveCount g <= Home.currentMove s ->
  Home.autoplayEffect s = None.
Proof.
  intros Hg Hlast. unfold Home.autoplayEffect. rewrite Hg.
  destruct (Home.currentMove s <? Home.moveCount g) eqn:E.
  - apply Z.ltb_lt in E. lia.
  - rewrite andb_false_r. reflexivity.
Qed.

(** C4 on the sample game (N = 3): autoplay is switched on at ply 0 and
    ticks three times, each tick followed by the effect that calls
    [handleMoveChange(currentMove)].  The ply is then 3 = N, no interval
    is set and no tick can happen any more, but the autoplay flag is
    still set: nothing has cleared it. *)
Theorem autoplay_flag_still_set_at_last_ply :
  exists w,
    Home.run [Home.ToggleAutoPlay;
              Home.Tick; Home.MoveEffect;
              Home.Tick; Home.MoveEffect;
              Home.Tick; Home.MoveEffect] SampleRuns.plain = Some w
    /\ Home.currentMove (Home.st w) = 3
    /\ Home.moveCount Sample.game = 3
    /\ Home.interval w = None
    /\ Home.step Home.Tick w = None
    /\ Home.autoPlay (Home.st w) = true.
Proof.
  eexists.
  repeat (split; [vm_compute; reflexivity|]). vm_compute. reflexivity.
Qed.

End Autoplay.

(** ** Invariants of the transition system *)

Section Reachable.

Implicit Types (s : Home.State) (g : ChessGame) (w : Home.World).

Lemma moveCount_moves g g' : moves g' = moves g ->
  Home.moveCount g' = Home.moveCount g.
Proof. unfold Home.moveCount. intros ->. reflexivity. Qed.

Lemma handleMoveChange_keeps_range (captured : bool) s g i s' rqs :
  Home.gameData s = Some g ->
  0 <= Home.currentMove s <= Home.moveCount g ->
  Home.handleMoveChange captured s i = Ok (s', rqs) ->
  Home.gameData s' = Some g
  /\ 0 <= Home.currentMove s' <= Home.moveCount g.
Proof.
  intros Hg Hc H.
  destruct (Z_lt_le_dec i 0) as [Hneg|Hnn].
  { rewrite (handleMoveChange_guard captured s g i Hg) in H by lia.
    injection H as <- _. auto. }
  destruct (Z_lt_le_dec (Home.moveCount g) i) as [Hbig|Hle].
  { rewrite (handleMoveChange_guard captured s g i Hg) in H by lia.
    injection H as <- _. auto. }
  destruct (handleMoveChange_in_range captured s g i Hg)
    as (s1 & rqs1 & H1 & Hg1 & Hc1 & _); [lia|].
  rewrite H1 in H. injection H as <- _. split; [exact Hg1|lia].
Qed.

Lemma analyzePosition_keeps (r : Home.State) (fen : option string) i s :
  Home.gameData (Home.analyzePosition r fen i s).1 = Home.gameData s
  /\ Home.currentMove (Home.analyzePosition r fen i s).1
     = Home.currentMove s.
Proof.
  unfold Home.analyzePosition. destruct (Home.gameData r); split; reflexivity.
Qed.

Lemma handleToggleBestMove_keeps s :
  Home.gameData (Home.handleToggleBestMove s).1 = Home.gameData s
  /\ Home.currentMove (Home.handleToggleBestMove s).1 = Home.currentMove s.
Proof.
  unfold Home.handleToggleBestMove.
  destruct (Home.gameData s) as [g|] eqn:Hg; [|auto].
  destruct (Home.analysisAt g (Home.currentMove s)); [rewrite <- Hg; auto|].
  destruct (Home.currentMove s <? Z.of_nat (length (positions g)));
    [|rewrite <- Hg; auto].
  rewrite <- Hg. apply analyzePosition_keeps.
Qed.

Lemma timeoutFired_keeps (t : Home.Timeout) s s' :
  Home.timeoutFired t s = Ok s' ->
  Home.gameData s' = Home.gameData s
  /\ Home.currentMove s' = Home.currentMove s.
Proof.
  unfold Home.timeoutFired. intros H.
  destruct (Home.tm_gameData t) as [g|].
  - destruct (0 <? Home.tm_currentMove t).
    + destruct (JS.index (moves g) (Home.tm_currentMove t - 1));
        [|discriminate]. injection H as <-. auto.
    + injection H as <-. auto.
  - injection H as <-. auto.
Qed.

Lemma fire_keeps (now : Z) (ts : list (Z * Home.Timeout)) :
  forall s n s' rest n',
    Home.fire now ts s n = Some (s', rest, n') ->
    Home.gameData s' = Home.gameData s
    /\ Home.currentMove s' = Home.currentMove s.
Proof.
  induction ts as [|[due t] ts IH]; intros s n s' rest n' H; cbn in H.
  - injection H as <- _ _. auto.
  - destruct (due <=? now).
    + destruct (Home.timeoutFired t s) as [s1|] eqn:Ht; [|discriminate].
      apply timeoutFired_keeps in Ht as [Hg1 Hc1].
      apply IH in H as [Hg2 Hc2]. split; congruence.
    + destruct (Home.fire now ts s n) as [[[s1 r1] n1]|] eqn:Hf;
        [|discriminate].
      injection H as <- _ _. eapply IH, Hf.
Qed.

Lemma analysisResolved_keeps (rq : Home.Request)
    (data : option PositionAnalysisData) s g :
  Home.gameData s = Some g ->
  (exists g', Home.gameData (Home.analysisResolved rq data s) = Some g'
              /\ moves g' = moves g)
  /\ Home.currentMove (Home.analysisResolved rq data s) = Home.currentMove s.
Proof.
  intros Hg. unfold Home.analysisResolved. rewrite Hg.
  destruct data as [d|]; cbn.
  - destruct (Home.rq_showSuggestedMoves rq || Home.rq_showingBestMove rq)%bool;
      cbn; split; eauto.
  - split; eauto.
Qed.

(** Every event keeps the invariant. *)
Lemma step_inv (e : Home.Event) g w w' :
  SpecInvariant.inv g w -> Home.step e w = Some w' -> SpecInvariant.inv g w'.
Proof.
  intros ((g0 & Hg & Hmoves) & Hc & Hint) Hstep.
  pose proof (step_interval e w w' Hstep) as Hint'.
  pose proof (moveCount_moves g g0 Hmoves) as HN.
  assert (Hcall : forall i s rqs,
            Home.handleMoveChange (Home.memo w) (Home.st w) i
            = Ok (s, rqs) ->
            (exists g', Home.gameData s = Some g' /\ moves g' = moves g)
            /\ 0 <= Home.currentMove s <= Home.moveCount g).
  { intros i s rqs Hh. rewrite <- HN in Hc.
    destruct (handleMoveChange_keeps_range _ _ _ _ _ _ Hg Hc Hh)
      as [Hg1 Hc1].
    rewrite HN in Hc1. eauto. }
  enough ((exists g', Home.gameData (Home.st w') = Some g'
                      /\ moves g' = moves g)
          /\ 0 <= Home.currentMove (Home.st w') <= Home.moveCount g)
    as [H1 H2] by (split; [exact H1|split; [exact H2|exact Hint']]).
  clear Hint'. destruct e; cbn in Hstep.
  - (* GoTo *)
    destruct (Home.handleMoveChange (Home.memo w) (Home.st w) moveIndex)
      as [[s rqs]|] eqn:Hh; [|discriminate].
    injection Hstep as <-. cbn. eapply Hcall, Hh.
  - (* MoveEffect *)
    destruct (Home.handleMoveChange (Home.memo w) (Home.st w) _)
      as [[s rqs]|] eqn:Hh; [|discriminate].
    injection Hstep as <-. cbn. eapply Hcall, Hh.
  - (* ToggleBestMove *)
    destruct (handleToggleBestMove_keeps (Home.st w)) as [Hg1 Hc1].
    destruct (Home.handleToggleBestMove (Home.st w)) as [s rqs].
    injection Hstep as <-. cbn in *. rewrite Hg1, Hc1. eauto.
  - (* ToggleAutoPlay *)
    injection Hstep as <-. cbn. eauto.
  - (* Tick *)
    destruct (Home.interval w) as [iv|] eqn:Hiv; [|discriminate].
    injection Hstep as <-. cbn.
    symmetry in Hint. unfold Home.autoplayEffect in Hint.
    rewrite Hg in Hint.
    destruct (Home.autoPlay (Home.st w)); [|discriminate].
    destruct (Home.currentMove (Home.st w) <? Home.moveCount g0) eqn:Hlt;
      [|discriminate].
    injection Hint as <-. apply Z.ltb_lt in Hlt.
    unfold Home.intervalFired. cbn.
    destruct (Home.moveCount g0 <=? Home.currentMove (Home.st w)); cbn.
    + eauto.
    + split; [eauto|lia].
  - (* ShowMoveOnBoard *)
    injection Hstep as <-. cbn. eauto.
  - (* Elapse *)
    destruct (ms <? 0); [discriminate|].
    destruct (Home.fire _ _ _ _) as [[[s rest] n]|] eqn:Hf; [|discriminate].
    injection Hstep as <-. cbn.
    apply fire_keeps in Hf as [Hg1 Hc1]. rewrite Hg1, Hc1. eauto.
  - (* Resolve *)
    destruct (Home.requests w !! k) as [rq|]; [|discriminate].
    injection Hstep as <-. unfold Home.answer, Home.rendered. cbn [Home.st].
    destruct (analysisResolved_keeps rq data _ _ Hg)
      as [(g1 & Hg1 & Hm1) Hc1].
    rewrite Hc1. split; [|exact Hc]. exists g1. split; congruence.
  - (* Reject *)
    destruct (Home.requests w !! k) as [rq|]; [|discriminate].
    injection Hstep as <-. cbn. eauto.
Qed.

Lemma loaded_inv g s : SpecInvariant.inv g (Home.loaded g s).
Proof.
  unfold SpecInvariant.inv, Home.loaded. cbn.
  split; [eauto|]. split; [|reflexivity].
  unfold Home.moveCount. lia.
Qed.

(** In every world reached from a loaded game the current ply is in
    [0, N] and the interval is the one of the render. *)
Lemma reachable_inv g s w :
  Home.reachable (Home.loaded g s) w -> SpecInvariant.inv g w.
Proof.
  intros [es Hrun]. revert Hrun.
  generalize (loaded_inv g s). generalize (Home.loaded g s).
  induction es as [|e es IH]; intros w0 Hinv Hrun; cbn in Hrun.
  - injection Hrun as <-. exact Hinv.
  - destruct (Home.step e w0) as [w1|] eqn:Hstep; [|discriminate].
    apply (IH w1); [|exact Hrun]. eapply step_inv; eassumption.
Qed.

(** X21.  Autoplay in every reachable world: a tick advances the ply by
    exactly one, never past N, and never clears the autoplay flag; at ply N
    no tick can happen. *)
Lemma reachable_tick g s w :
  Home.reachable (Home.loaded g s) w ->
  (forall w', Home.step Home.Tick w = Some w' ->
     Home.currentMove (Home.st w') = Home.currentMove (Home.st w) + 1
     /\ Home.currentMove (Home.st w') <= Home.moveCount g
     /\ Home.autoPlay (Home.st w') = true)
  /\ (Home.currentMove (Home.st w) = Home.moveCount g ->
      Home.step Home.Tick w = None).
Proof.
  intros Hreach.
  destruct (reachable_inv g s w Hreach) as ((g0 & Hg & Hmoves) & Hc & Hint).
  pose proof (moveCount_moves g g0 Hmoves) as HN.
  split.
  - intros w' Hstep.
    destruct (tick_advances w w' Hint Hstep) as (g1 & Hg1 & _ & H1 & H2 & H3).
    rewrite Hg in Hg1. injection Hg1 as <-. rewrite HN in H2. auto.
  - intros Hlast. cbn. rewrite Hint.
    rewrite (no_interval_at_last_ply _ g0 Hg); [reflexivity|lia].
Qed.

End Reachable.

(** * Further properties of the code *)

(** ** utils.ts: squares and piece codes *)

(** Case analysis on the keys a name is compared with. *)
Ltac cases_of_names name :=
  repeat match goal with
         | |- context [String.eqb name ?n] =>
             destruct (String.eqb_spec name n) as [->|?]
         end.

Section SquaresAndPieces.

Lemma nat_of_ascii_inj (a b : ascii) :
  nat_of_ascii a = nat_of_ascii b -> a = b.
Proof.
  intros H. rewrite <- (ascii_nat_embedding a), <- (ascii_nat_embedding b).
  rewrite H. reflexivity.
Qed.

(** X1.  On well-formed squares [algebraicToIndices] is injective in the
    file and the rank: two squares with the same coordinates have the same
    first two characters, and the coordinates are those of the grid (row 0
    for rank 8, column 0 for file a).  Characters after the second are
    ignored. *)
Theorem algebraicToIndices_injective (f r f' r' : ascii)
    (rest rest' : string) :
  Spec.fileOk f = true -> Spec.rankOk r = true ->
  Spec.fileOk f' = true -> Spec.rankOk r' = true ->
  ChessUtils.algebraicToIndices (String f (String r rest))
  = ChessUtils.algebraicToIndices (String f' (String r' rest')) ->
  f = f' /\ r = r'
  /\ ChessUtils.algebraicToIndices (String f (String r rest))
     = ChessUtils.algebraicToIndices (String f (String r EmptyString)).
Proof.
  intros Hf Hr Hf' Hr' Heq.
  destruct (algebraicToIndices_wellformed f r rest Hf Hr) as [H1 _].
  destruct (algebraicToIndices_wellformed f' r' rest' Hf' Hr') as [H2 _].
  destruct (algebraicToIndices_wellformed f r EmptyString Hf Hr) as [H3 _].
  rewrite H1, H2 in Heq. injection Heq as Hrow Hcol.
  split; [|split].
  - apply nat_of_ascii_inj. lia.
  - apply nat_of_ascii_inj. lia.
  - rewrite H1, H3. reflexivity.
Qed.

Lemma algebraicToIndices_injective_witness :
  "e"%char = "e"%char /\ "4"%char = "4"%char
  /\ ChessUtils.algebraicToIndices "e4+"
     = ChessUtils.algebraicToIndices "e4".
Proof.
  apply (algebraicToIndices_injective "e"%char "4"%char "e"%char "4"%char
           "+" ""); reflexivity.
Defined.

(** [JS.inherited] decides membership in [Object.prototype]. *)
Lemma inherited_In (k : string) :
  JS.inherited k = true <-> In k JS.objectPrototype.
Proof.
  unfold JS.inherited. rewrite existsb_exists. split.
  - intros (x & Hx & E). apply String.eqb_eq in E. subst x. exact Hx.
  - intros H. exists k. split; [exact H|apply String.eqb_refl].
Qed.

Lemma getOr_unfold {A : Type} (truthy : A -> bool)
    (entries : list (string * A)) (k : string) (d : A) :
  JS.getOr truthy entries k d
  = match JS.own entries k with
    | Some a => if truthy a then JS.Own a else JS.Own d
    | None => if JS.inherited k then JS.Inherited k else JS.Own d
    end.
Proof.
  unfold JS.getOr, JS.get.
  destruct (JS.own entries k); [reflexivity|].
  destruct (JS.inherited k); reflexivity.
Qed.

(** X2.  The board and the list of captured pieces draw a piece alike:
    when [pieceNameToChar] gives a code for a piece name and a colour, the
    symbol [renderPieceSymbol] draws for that code is what
    [renderCapturedPiece] draws for the name and the colour (nothing for a
    name that is unknown).  For a name that is a member of
    [Object.prototype] neither gives a string: both return the member. *)
Theorem renderPieceSymbol_pieceNameToChar (pieceName : string)
    (isWhite : bool) :
  match ChessUtils.pieceNameToChar pieceName isWhite with
  | JS.Own code =>
      ~ In pieceName JS.objectPrototype
      /\ ChessUtils.renderPieceSymbol code
         = ChessUtils.renderCapturedPiece pieceName isWhite
  | JS.Inherited k =>
      In pieceName JS.objectPrototype
      /\ k = pieceName
      /\ ChessUtils.renderCapturedPiece pieceName isWhite = JS.Inherited k
  end.
Proof.
  unfold ChessUtils.pieceNameToChar, ChessUtils.renderCapturedPiece.
  cbv zeta. rewrite !getOr_unfold. cbn [JS.own].
  cases_of_names pieceName.
  1-6: (destruct isWhite; cbn [JS.truthy_str];
        (split; [rewrite <- inherited_In; vm_compute; discriminate
                |reflexivity])).
  destruct (JS.inherited pieceName) eqn:E.
  - split; [apply inherited_In, E|]. split; reflexivity.
  - split; [rewrite <- inherited_In, E; discriminate|reflexivity].
Qed.

(** X3.  [pieceNameToChar] returns a one-letter code for the six piece
    names, the code for white differing from the code for black; the
    member of [Object.prototype] for a name the literal inherits, such as
    [constructor]; and the empty code exactly for every other name. *)
Theorem pieceNameToChar_empty_iff (pieceName : string) (isWhite : bool) :
  (ChessUtils.pieceNameToChar pieceName isWhite = JS.Own ""
   <-> ~ In pieceName SpecBoard.pieceNames
       /\ ~ In pieceName JS.objectPrototype)
  /\ (In pieceName SpecBoard.pieceNames ->
      (exists code,
         ChessUtils.pieceNameToChar pieceName isWhite = JS.Own code
         /\ String.length code = 1%nat)
      /\ ChessUtils.pieceNameToChar pieceName true
         <> ChessUtils.pieceNameToChar pieceName false)
  /\ (In pieceName JS.objectPrototype ->
      ChessUtils.pieceNameToChar pieceName isWhite
      = JS.Inherited pieceName).
Proof.
  unfold ChessUtils.pieceNameToChar, SpecBoard.pieceNames.
  cbv zeta. rewrite !getOr_unfold. cbn [JS.own].
  cases_of_names pieceName.
  1-6: (split; [|split];
        [split; [destruct isWhite; discriminate
                |intros [H _]; exfalso; apply H; cbn; tauto]
        |intros _; split;
           [destruct isWhite; eexists; (split; reflexivity)|discriminate]
        |rewrite <- inherited_In; vm_compute; discriminate]).
  assert (Hnot : ~ In pieceName
                     ["pawn"; "knight"; "bishop"; "rook"; "queen"; "king"])
    by (cbn; intuition congruence).
  destruct (JS.inherited pieceName) eqn:E.
  - split; [|split].
    + split; [discriminate|].
      intros [_ H]. exfalso. apply H, inherited_In, E.
    + intros H. contradiction.
    + reflexivity.
  - split; [|split].
    + split; [|reflexivity]. intros _. split; [exact Hnot|].
      rewrite <- inherited_In, E. discriminate.
    + intros H. contradiction.
    + rewrite <- inherited_In, E. discriminate.
Qed.

Lemma pieceNameToChar_empty_iff_witness :
  (exists code,
     ChessUtils.pieceNameToChar "knight" false = JS.Own code
     /\ String.length code = 1%nat)
  /\ ChessUtils.pieceNameToChar "knight" true
     <> ChessUtils.pieceNameToChar "knight" false
  /\ ChessUtils.pieceNameToChar "constructor" true
     = JS.Inherited "constructor".
Proof.
  destruct (pieceNameToChar_empty_iff "knight" false) as (_ & H & _).
  destruct (pieceNameToChar_empty_iff "constructor" true) as (_ & _ & H').
  destruct H as [H1 H2]; [cbn; tauto|].
  split; [exact H1|]. split; [exact H2|]. apply H'. cbn. tauto.
Defined.

End SquaresAndPieces.

(** ** utils.ts: fenToBoard *)

Section FenToBoard.

Lemma split_nonempty (sep : ascii) (s : string) : JS.split sep s <> [].
Proof.
  induction s as [|c s IH]; cbn -[Ascii.eqb]; [discriminate|].
  destruct (Ascii.eqb c sep); [discriminate|].
  destruct (JS.split sep s); [contradiction|discriminate].
Qed.

Lemma split_first_field (sep : ascii) (s rest : string) :
  hd EmptyString (JS.split sep (s +:+ String sep rest))
  = hd EmptyString (JS.split sep s).
Proof.
  induction s as [|c s IH].
  - change (EmptyString +:+ String sep rest) with (String sep rest).
    cbn -[Ascii.eqb]. rewrite Ascii.eqb_refl. reflexivity.
  - change (String c s +:+ String sep rest)
      with (String c (s +:+ String sep rest)).
    cbn -[Ascii.eqb].
    destruct (Ascii.eqb c sep); [reflexivity|].
    pose proof (split_nonempty sep s) as H1.
    pose proof (split_nonempty sep (s +:+ String sep rest)) as H2.
    destruct (JS.split sep s) as [|w ws]; [contradiction|].
    destruct (JS.split sep (s +:+ String sep rest)) as [|w' ws'];
      [contradiction|].
    cbn in *. rewrite IH. reflexivity.
Qed.

(** X4.  [fenToBoard] reads the first field only: what follows the first
    space (side to move, castling rights, counters) changes nothing. *)
Theorem fenToBoard_first_field (fen rest : string) :
  ChessUtils.fenToBoard (fen +:+ " " +:+ rest) = ChessUtils.fenToBoard fen.
Proof.
  unfold ChessUtils.fenToBoard, ChessUtils.piecePlacement.
  change (" " +:+ rest) with (String " " rest).
  rewrite split_first_field. reflexivity.
Qed.

Lemma length_split (sep : ascii) (s : string) :
  length (JS.split sep s) = S (SpecBoard.count sep s).
Proof.
  induction s as [|c s IH]; cbn -[Ascii.eqb]; [reflexivity|].
  destruct (Ascii.eqb c sep); cbn.
  - rewrite IH. reflexivity.
  - pose proof (split_nonempty sep s) as H.
    destruct (JS.split sep s) as [|w ws]; [contradiction|].
    cbn in *. exact IH.
Qed.

Lemma length_assign {A : Type} (a : list (option A)) (i : nat) (x : A) :
  (length a <= length (JS.assign a i x))%nat.
Proof.
  unfold JS.assign. destruct (i <? length a)%nat.
  - rewrite length_insert. lia.
  - rewrite length_app. lia.
Qed.

Lemma length_fillRow (chars : string) :
  forall col row, (length row <= length (ChessUtils.fillRow chars col row))%nat.
Proof.
  induction chars as [|c chars IH]; intros col row; cbn; [lia|].
  destruct (JS.digitValue c).
  - apply IH.
  - etransitivity; [apply (length_assign row col)|apply IH].
Qed.

Lemma fillBoard_spec (rows : list string) (n : nat) :
  forall i,
    (i + n <= length rows)%nat ->
    ChessUtils.fillBoard rows i n
    = Ok ((fun chars => ChessUtils.fillRow chars 0 ChessUtils.emptyRow)
            <$> take n (drop i rows)).
Proof.
  induction n as [|n IH]; intros i Hi; cbn; [reflexivity|].
  destruct (lookup_lt_is_Some_2 rows i) as [chars Hchars]; [lia|].
  rewrite Hchars, IH by lia.
  rewrite (drop_S rows chars i Hchars). reflexivity.
Qed.

Lemma fillBoard_raises (rows : list string) (n : nat) :
  forall i,
    (length rows < i + n)%nat -> (0 < n)%nat ->
    ChessUtils.fillBoard rows i n = TypeError.
Proof.
  induction n as [|n IH]; intros i Hi Hn; [lia|]. cbn.
  destruct (rows !! i) as [chars|] eqn:Hchars; [|reflexivity].
  apply lookup_lt_Some in Hchars.
  rewrite IH; [reflexivity|lia|lia].
Qed.

(** X5.  [fenToBoard] raises exactly when the first field has fewer than 7
    slashes, that is fewer than 8 ranks.  Otherwise it returns 8 rows, one
    per rank among the first 8 (further ranks are ignored), each of at
    least 8 squares. *)
Theorem fenToBoard_raises_iff (fen : string) :
  (ChessUtils.fenToBoard fen = TypeError
   <-> (SpecBoard.count "/" (ChessUtils.piecePlacement fen) < 7)%nat)
  /\ ((7 <= SpecBoard.count "/" (ChessUtils.piecePlacement fen))%nat ->
      exists board,
        ChessUtils.fenToBoard fen = Ok board
        /\ length board = 8%nat
        /\ Forall (fun row => (8 <= length row)%nat) board).
Proof.
  unfold ChessUtils.fenToBoard.
  pose proof (length_split "/" (ChessUtils.piecePlacement fen)) as Hlen.
  set (rows := JS.split "/" (ChessUtils.piecePlacement fen)) in *.
  assert (Hok : (7 <= SpecBoard.count "/" (ChessUtils.piecePlacement fen))%nat
                -> exists board,
                     ChessUtils.fillBoard rows 0 8 = Ok board
                     /\ length board = 8%nat
                     /\ Forall (fun row => (8 <= length row)%nat) board).
  { intros H. rewrite fillBoard_spec by (cbn; lia).
    eexists. split; [reflexivity|]. split.
    - rewrite length_fmap, length_take, length_drop. lia.
    - apply Forall_fmap, Forall_forall. intros chars _. cbn.
      apply (length_fillRow chars 0 ChessUtils.emptyRow). }
  split; [|exact Hok]. split.
  - intros Hraise.
    destruct (le_lt_dec 7 (SpecBoard.count "/" (ChessUtils.piecePlacement fen)))
      as [H|H]; [|exact H].
    destruct (Hok H) as (board & Hb & _). congruence.
  - intros H. apply fillBoard_raises; lia.
Qed.

Lemma fenToBoard_raises_iff_witness :
  exists board,
    ChessUtils.fenToBoard "8/8/8/8/8/8/8/8 w - - 0 1" = Ok board
    /\ length board = 8%nat
    /\ Forall (fun row => (8 <= length row)%nat) board.
Proof.
  destruct (fenToBoard_raises_iff "8/8/8/8/8/8/8/8 w - - 0 1") as [_ H].
  apply H. vm_compute. lia.
Defined.

Lemma fillRow_expand (chars : string) :
  forall (pre : list string),
    (length pre + length (SpecBoard.expand chars) <= 8)%nat ->
    ChessUtils.fillRow chars (length pre)
      ((Some <$> pre) ++ replicate (8 - length pre) (Some EmptyString))%list
    = ((Some <$> (pre ++ SpecBoard.expand chars))
       ++ replicate (8 - length pre - length (SpecBoard.expand chars))
            (Some EmptyString))%list.
Proof.
  induction chars as [|c chars IH]; intros pre Hlen; cbn in *.
  - rewrite app_nil_r, Nat.sub_0_r. reflexivity.
  - destruct (JS.digitValue c) as [d|].
    + rewrite length_app, length_replicate in Hlen.
      set (pre' := (pre ++ replicate (Z.to_nat d) EmptyString)%list).
      assert (Hcol : (length pre + Z.to_nat d)%nat = length pre').
      { subst pre'. rewrite length_app, length_replicate. reflexivity. }
      assert (Hrow :
        ((Some <$> pre) ++ replicate (8 - length pre) (Some EmptyString))%list
        = ((Some <$> pre')
           ++ replicate (8 - length pre') (Some EmptyString))%list).
      { rewrite <- Hcol. subst pre'.
        rewrite fmap_app, fmap_replicate, <- app_assoc, <- replicate_add.
        do 2 f_equal. lia. }
      rewrite Hrow, Hcol, IH by (rewrite <- Hcol; lia).
      rewrite <- Hcol. subst pre'.
      rewrite <- app_assoc, !length_app, !length_replicate.
      do 2 f_equal. lia.
    + cbn in Hlen.
      set (pre' := (pre ++ [String c EmptyString])%list).
      assert (Hcol : S (length pre) = length pre').
      { subst pre'. rewrite length_app. cbn. lia. }
      assert (Hrow :
        JS.assign
          ((Some <$> pre)
           ++ replicate (8 - length pre) (Some EmptyString))%list
          (length pre) (String c EmptyString)
        = ((Some <$> pre')
           ++ replicate (8 - length pre') (Some EmptyString))%list).
      { rewrite <- Hcol. subst pre'. unfold JS.assign.
        rewrite length_app, length_fmap, length_replicate.
        destruct (length pre <? length pre + (8 - length pre))%nat eqn:E;
          [|apply Nat.ltb_ge in E; lia].
        rewrite insert_app_r_alt by (rewrite length_fmap; lia).
        rewrite length_fmap, Nat.sub_diag.
        destruct (8 - length pre)%nat as [|k] eqn:Ek; [lia|].
        cbn. rewrite fmap_app, <- app_assoc. cbn.
        do 3 f_equal. lia. }
      rewrite Hrow, Hcol, IH by (rewrite <- Hcol; lia).
      rewrite <- Hcol. subst pre'.
      rewrite <- app_assoc. cbn. do 2 f_equal. lia.
Qed.

(** X6.  A rank that denotes at most 8 squares is decoded into exactly
    these squares, completed with empty squares to 8: digits are runs of
    empty squares, every other character is a piece on its square.  For a
    position of 8 such ranks, [fenToBoard] returns the 8 decoded rows: 8
    squares each, none undefined. *)
Theorem fenToBoard_decodes (fen : string) :
  let ranks := take 8 (JS.split "/" (ChessUtils.piecePlacement fen)) in
  length ranks = 8%nat ->
  Forall (fun chars => (length (SpecBoard.expand chars) <= 8)%nat) ranks ->
  ChessUtils.fenToBoard fen = Ok (SpecBoard.decodeRank <$> ranks)
  /\ Forall (fun row => length row = 8%nat /\ Forall is_Some row)
       (SpecBoard.decodeRank <$> ranks).
Proof.
  cbv zeta. intros Hlen Hranks. unfold ChessUtils.fenToBoard.
  rewrite length_take in Hlen.
  rewrite fillBoard_spec by (cbn; lia). rewrite drop_0. split.
  - f_equal. apply Forall_fmap_ext_1.
    eapply Forall_impl; [exact Hranks|]. intros chars Hchars. cbn beta.
    exact (fillRow_expand chars [] Hchars).
  - apply Forall_fmap. eapply Forall_impl; [exact Hranks|].
    intros chars Hchars. cbn in Hchars. cbn. unfold SpecBoard.decodeRank.
    split.
    + rewrite length_app, length_fmap, length_replicate. lia.
    + apply Forall_app. split.
      * apply Forall_fmap, Forall_forall. intros; cbn; eauto.
      * apply Forall_replicate. eauto.
Qed.

Lemma fenToBoard_decodes_witness :
  ChessUtils.fenToBoard
    "rnbqkbnr/pppppppp/8/8/4P3/8/PPPP1PPP/RNBQKBNR b KQkq - 0 1"
  = Ok (SpecBoard.decodeRank
          <$> ["rnbqkbnr"; "pppppppp"; "8"; "8"; "4P3"; "8"; "PPPP1PPP";
               "RNBQKBNR"]).
Proof.
  apply (fenToBoard_decodes
           "rnbqkbnr/pppppppp/8/8/4P3/8/PPPP1PPP/RNBQKBNR b KQkq - 0 1").
  - reflexivity.
  - vm_compute. repeat constructor.
Defined.

(** A rank that denotes more than 8 squares makes its row longer: a piece
    written past column 7 extends the row, with holes before it. *)
Example fenToBoard_long_rank :
  ChessUtils.fillRow "9k" 0 ChessUtils.emptyRow
  = (replicate 8 (Some "") ++ [None; Some "k"])%list.
Proof. reflexivity. Qed.

End FenToBoard.

(** ** utils.ts: sortPiecesByValue *)

Section SortPieces.

Implicit Types (x y p : string) (l pieces : list string).

(** The key of a name the literal does not inherit, and of one it does. *)
Lemma orderOf_rank p :
  JS.inherited p = false ->
  ChessUtils.orderOf p = JS.Own (SpecCaptured.rank p).
Proof.
  intros H. unfold ChessUtils.orderOf, SpecCaptured.rank. cbv zeta.
  rewrite getOr_unfold. cbn [JS.own].
  cases_of_names p; try reflexivity. rewrite H. reflexivity.
Qed.

Lemma orderOf_inherited p :
  JS.inherited p = true -> ChessUtils.orderOf p = JS.Inherited p.
Proof.
  intros H. unfold ChessUtils.orderOf. cbv zeta.
  rewrite getOr_unfold. cbn [JS.own].
  cases_of_names p; try (vm_compute in H; discriminate H).
  rewrite H. reflexivity.
Qed.

Lemma compareOrder_rank x y :
  JS.inherited x = false -> JS.inherited y = false ->
  ChessUtils.compareOrder x y
  = Num (SpecCaptured.rank x - SpecCaptured.rank y).
Proof.
  intros Hx Hy. unfold ChessUtils.compareOrder.
  rewrite (orderOf_rank x Hx), (orderOf_rank y Hy). reflexivity.
Qed.

Lemma compareOrder_self_inherited p :
  JS.inherited p = true -> ChessUtils.compareOrder p p = NaN.
Proof.
  intros H. unfold ChessUtils.compareOrder.
  rewrite (orderOf_inherited p H). reflexivity.
Qed.

(** The comparator is consistent on a list exactly when no name of the
    list is a member of [Object.prototype]. *)
Lemma consistent_iff pieces :
  ChessUtils.consistent pieces = true
  <-> Forall (fun p => JS.inherited p = false) pieces.
Proof.
  unfold ChessUtils.consistent. rewrite forallb_forall, Forall_forall.
  split.
  - intros H p Hp. apply list_elem_of_In in Hp.
    specialize (H p Hp). rewrite forallb_forall in H.
    specialize (H p Hp).
    destruct (JS.inherited p) eqn:E; [|reflexivity].
    rewrite (compareOrder_self_inherited p E) in H. discriminate H.
  - intros H a Ha. apply forallb_forall. intros b Hb.
    rewrite compareOrder_rank; [reflexivity| |];
      apply H, list_elem_of_In; assumption.
Qed.

Lemma insertPiece_perm x l :
  Permutation (ChessUtils.insertPiece x l) (x :: l).
Proof.
  induction l as [|y l IH]; cbn; [reflexivity|].
  destruct (ChessUtils.compareOrder y x) as [|v]; [reflexivity|].
  destruct (v <? 0); [|reflexivity].
  rewrite IH. apply perm_swap.
Qed.

Lemma stableSort_perm pieces :
  Permutation (ChessUtils.stableSort pieces) pieces.
Proof.
  induction pieces as [|x l IH]; cbn; [reflexivity|].
  rewrite insertPiece_perm, IH. reflexivity.
Qed.

Lemma insertPiece_sorted x l :
  JS.inherited x = false ->
  Forall (fun p => JS.inherited p = false) l ->
  StronglySorted (fun a b => SpecCaptured.rank a <= SpecCaptured.rank b) l ->
  StronglySorted (fun a b => SpecCaptured.rank a <= SpecCaptured.rank b)
    (ChessUtils.insertPiece x l).
Proof.
  intros Hx Hl. induction 1 as [|y l Hsorted IH Hy]; cbn.
  - repeat constructor.
  - apply Forall_cons in Hl as [Hy' Hl].
    rewrite (compareOrder_rank y x Hy' Hx).
    destruct (SpecCaptured.rank y - SpecCaptured.rank x <? 0) eqn:E.
    + apply Z.ltb_lt in E. constructor; [exact (IH Hl)|].
      apply (Permutation_Forall (Permutation_sym (insertPiece_perm x l))).
      constructor; [lia|exact Hy].
    + apply Z.ltb_ge in E. constructor.
      * constructor; assumption.
      * constructor; [lia|].
        eapply Forall_impl; [exact Hy|]. intros z Hz. cbn in Hz. lia.
Qed.

Lemma insertPiece_filter (k : Z) x l :
  JS.inherited x = false ->
  Forall (fun p => JS.inherited p = false) l ->
  filter (fun p => SpecCaptured.rank p = k) (ChessUtils.insertPiece x l)
  = filter (fun p => SpecCaptured.rank p = k) (x :: l).
Proof.
  intros Hx. induction 1 as [|y l Hy Hl IH]; cbn; [reflexivity|].
  rewrite (compareOrder_rank y x Hy Hx).
  destruct (SpecCaptured.rank y - SpecCaptured.rank x <? 0) eqn:E;
    [|reflexivity].
  apply Z.ltb_lt in E.
  rewrite filter_cons, IH, !filter_cons.
  repeat case_decide; try reflexivity; lia.
Qed.

Lemma stableSort_sorted pieces :
  Forall (fun p => JS.inherited p = false) pieces ->
  StronglySorted (fun a b => SpecCaptured.rank a <= SpecCaptured.rank b)
    (ChessUtils.stableSort pieces)
  /\ forall k,
       filter (fun p => SpecCaptured.rank p = k)
         (ChessUtils.stableSort pieces)
       = filter (fun p => SpecCaptured.rank p = k) pieces.
Proof.
  induction 1 as [|x l Hx Hl [IHs IHf]]; cbn.
  - split; [constructor|reflexivity].
  - assert (Hl' : Forall (fun p => JS.inherited p = false)
                    (ChessUtils.stableSort l)).
    { apply (Permutation_Forall (Permutation_sym (stableSort_perm l))).
      exact Hl. }
    split.
    + apply insertPiece_sorted; assumption.
    + intros k. rewrite insertPiece_filter by assumption.
      rewrite !filter_cons, IHf. reflexivity.
Qed.

(** X7.  The order of [sortPiecesByValue] is implementation-defined
    exactly when a name of the list is a member of [Object.prototype] (the
    comparator then yields [NaN]).  Otherwise it returns its pieces
    rearranged in the order queen, rook, bishop, knight, pawn, king, any
    other name last, and pieces of the same kind keep their order. *)
Theorem sortPiecesByValue_sorted pieces :
  (ChessUtils.sortPiecesByValue pieces = None
   <-> exists p, In p pieces /\ In p JS.objectPrototype)
  /\ forall sorted,
       ChessUtils.sortPiecesByValue pieces = Some sorted ->
       Permutation sorted pieces
       /\ StronglySorted
            (fun a b => SpecCaptured.rank a <= SpecCaptured.rank b) sorted
       /\ forall k,
            filter (fun p => SpecCaptured.rank p = k) sorted
            = filter (fun p => SpecCaptured.rank p = k) pieces.
Proof.
  unfold ChessUtils.sortPiecesByValue.
  destruct (ChessUtils.consistent pieces) eqn:E.
  - apply consistent_iff in E. split.
    + split; [discriminate|]. intros (p & Hp & Hproto). exfalso.
      rewrite Forall_forall in E. apply list_elem_of_In in Hp.
      apply inherited_In in Hproto. rewrite (E p Hp) in Hproto.
      discriminate Hproto.
    + intros sorted [= <-]. split; [apply stableSort_perm|].
      apply stableSort_sorted, E.
  - split; [|discriminate]. split; [|reflexivity]. intros _.
    assert (H : ~ Forall (fun p => JS.inherited p = false) pieces).
    { intros H. apply consistent_iff in H. congruence. }
    apply not_Forall_Exists in H; [|intros p; apply _].
    apply Exists_exists in H as (p & Hp & Hproto).
    exists p. split; [apply list_elem_of_In, Hp|].
    apply inherited_In. unfold compose in Hproto.
    destruct (JS.inherited p); [reflexivity|]. exfalso. apply Hproto.
    reflexivity.
Qed.

Lemma sortPiecesByValue_sorted_witness :
  ChessUtils.sortPiecesByValue ["pawn"; "dragon"; "queen"; "pawn"; "rook"]
  = Some ["queen"; "rook"; "pawn"; "pawn"; "dragon"]
  /\ Permutation ["queen"; "rook"; "pawn"; "pawn"; "dragon"]
       ["pawn"; "dragon"; "queen"; "pawn"; "rook"]
  /\ ChessUtils.sortPiecesByValue ["constructor"; "queen"] = None.
Proof.
  split; [reflexivity|]. split.
  - apply (sortPiecesByValue_sorted
             ["pawn"; "dragon"; "queen"; "pawn"; "rook"]).
    reflexivity.
  - apply (sortPiecesByValue_sorted ["constructor"; "queen"]).
    exists "constructor". split; cbn; tauto.
Defined.

End SortPieces.

(** ** components.tsx: CapturedPieces *)

Section CapturedPieces.

Lemma getPieceValue_value (piece : string) :
  JS.inherited piece = false ->
  ChessUtils.getPieceValue piece = JS.Own (SpecCaptured.value piece).
Proof.
  intros H. unfold ChessUtils.getPieceValue, SpecCaptured.value. cbv zeta.
  rewrite getOr_unfold. cbn [JS.own].
  cases_of_names piece; try reflexivity. rewrite H. reflexivity.
Qed.

Lemma getPieceValue_inherited (piece : string) :
  JS.inherited piece = true ->
  ChessUtils.getPieceValue piece = JS.Inherited piece.
Proof.
  intros H. unfold ChessUtils.getPieceValue. cbv zeta.
  rewrite getOr_unfold. cbn [JS.own].
  cases_of_names piece; try (vm_compute in H; discriminate H).
  rewrite H. reflexivity.
Qed.

Lemma slice0_snoc {A : Type} (a : list A) (k : nat) (x : A) :
  a !! k = Some x ->
  JS.slice0 a (Z.of_nat k + 1) = (JS.slice0 a (Z.of_nat k) ++ [x])%list.
Proof.
  intros Hx. unfold JS.slice0.
  destruct (Z.of_nat k + 1 <? 0) eqn:E1; [apply Z.ltb_lt in E1; lia|].
  destruct (Z.of_nat k <? 0) eqn:E2; [apply Z.ltb_lt in E2; lia|].
  replace (Z.to_nat (Z.of_nat k + 1)) with (S k) by lia.
  rewrite Nat2Z.id. apply take_S_r, Hx.
Qed.

(** X8.  The material advantage shown is 0 before the first move, and
    playing move [k] adds nothing to it when the move is no capture and
    the value of the piece named by the move when it is one (pawn 1, knight
    and bishop 3, rook 5, queen 9, king or unknown 0): added for a white
    move, subtracted for a move of any other colour.  A capture whose
    piece name is a member of [Object.prototype] makes it [NaN], and it
    stays [NaN] from then on. *)
Theorem materialAdvantage_step (moves : list MoveDetail) (k : nat)
    (move : MoveDetail) :
  moves !! k = Some move ->
  Components.materialAdvantage moves 0 = Num 0
  /\ Components.materialAdvantage moves (Z.of_nat k + 1)
     = match Components.materialAdvantage moves (Z.of_nat k),
             SpecCaptured.captureDelta move with
       | Num a, Some d => Num (a + d)
       | _, _ => NaN
       end.
Proof.
  intros Hmove. split; [reflexivity|].
  unfold Components.materialAdvantage, Components.calculateCapturedPieces.
  rewrite (slice0_snoc moves k move Hmove), foldl_app. cbn [foldl].
  destruct (foldl _ _ (JS.slice0 moves (Z.of_nat k))) as [w b].
  unfold SpecCaptured.captureDelta, Components.calculateMaterialAdvantage.
  destruct (md_capture move).
  2: { destruct (foldl Components.addValue (Components.Total 0) b),
         (foldl Components.addValue (Components.Total 0) w); try reflexivity.
       f_equal. lia. }
  destruct (String.eqb (md_color move) "white");
    rewrite foldl_app; cbn [foldl];
    destruct (foldl Components.addValue (Components.Total 0) b),
      (foldl Components.addValue (Components.Total 0) w);
    unfold Components.addValue;
    (destruct (JS.inherited (md_piece move)) eqn:E;
     [rewrite ?(getPieceValue_inherited _ E)
     |rewrite ?(getPieceValue_value _ E)]);
    try reflexivity; f_equal; lia.
Qed.

Lemma materialAdvantage_step_witness :
  Components.materialAdvantage (moves Sample.game) (2 + 1) = Num (0 + 1).
Proof.
  destruct (materialAdvantage_step (moves Sample.game) 2 Sample.exd5)
    as [_ H]; [reflexivity|].
  exact H.
Defined.

End CapturedPieces.

(** ** components.tsx: GameControls *)

Section GameControls.

(** X9.  While the current ply is in [0, N], every index the controls
    pass to [onMoveChange] (first, previous, next, last, an entry of the
    move list) is in [0, N]: the guard of [handleMoveChange] never rejects
    a request of the controls. *)
Theorem onMoveChangeArguments_in_range (captured : bool) (s : Home.State)
    (g : ChessGame) (moveIndex : Z) :
  Home.gameData s = Some g ->
  0 <= Home.currentMove s <= Home.moveCount g ->
  In moveIndex
    (Components.onMoveChangeArguments (moves g) (Home.currentMove s)) ->
  0 <= moveIndex <= Home.moveCount g
  /\ exists s' rqs,
       Home.handleMoveChange captured s moveIndex = Ok (s', rqs)
       /\ Home.currentMove s' = moveIndex.
Proof.
  intros Hg Hc Hin.
  assert (Hrange : 0 <= moveIndex <= Home.moveCount g).
  { unfold Components.onMoveChangeArguments, Home.moveCount in *.
    apply in_app_or in Hin as [Hin|Hin];
      [|apply in_app_or in Hin as [Hin|Hin]].
    - destruct (Home.currentMove s =? 0) eqn:E; [destruct Hin|].
      apply Z.eqb_neq in E. destruct Hin as [<-|[<-|[]]]; lia.
    - destruct (Home.currentMove s =? Z.of_nat (length (moves g))) eqn:E;
        [destruct Hin|].
      apply Z.eqb_neq in E. destruct Hin as [<-|[<-|[]]]; lia.
    - apply list_elem_of_In, elem_of_lookup_imap in Hin
        as (i & x & -> & Hx).
      apply lookup_lt_Some in Hx. lia. }
  split; [exact Hrange|].
  destruct (handleMoveChange_in_range captured s g moveIndex Hg Hrange)
    as (s' & rqs & H & _ & Hc' & _).
  eauto.
Qed.

Lemma onMoveChangeArguments_in_range_witness :
  0 <= 3 <= Home.moveCount Sample.game
  /\ exists s' rqs,
       Home.handleMoveChange (Home.memo SampleRuns.plain)
         (Home.st SampleRuns.plain) 3 = Ok (s', rqs)
       /\ Home.currentMove s' = 3.
Proof.
  apply (onMoveChangeArguments_in_range (Home.memo SampleRuns.plain)
           (Home.st SampleRuns.plain) Sample.game 3).
  - reflexivity.
  - split; discriminate.
  - vm_compute. tauto.
Defined.

End GameControls.

(** ** components.tsx: EvaluationBar *)

Section EvaluationBar.

Lemma clamp_bounds (evaluation : Q) :
  (- (5) <= Qmax (- (5)) (Qmin 5 evaluation)
   /\ Qmax (- (5)) (Qmin 5 evaluation) <= 5)%Q.
Proof.
  split.
  - apply Q.le_max_l.
  - apply Q.max_lub; [discriminate|apply Q.le_min_l].
Qed.

(** X10.  The white share of the evaluation bar is a percentage: between
    0 and 100 for every evaluation, 100 from +5 up, 0 from -5 down, and
    50 + 10 * evaluation in between. *)
Theorem whitePercentage_bounds (evaluation : Q) :
  (0 <= Components.whitePercentage evaluation
   /\ Components.whitePercentage evaluation <= 100)%Q
  /\ ((5 <= evaluation)%Q ->
      (Components.whitePercentage evaluation == 100)%Q)
  /\ ((evaluation <= - (5))%Q ->
      (Components.whitePercentage evaluation == 0)%Q)
  /\ ((- (5) <= evaluation)%Q -> (evaluation <= 5)%Q ->
      (Components.whitePercentage evaluation == 50 + 10 * evaluation)%Q).
Proof.
  unfold Components.whitePercentage, Components.normalizedEval.
  pose proof (clamp_bounds evaluation) as [Hlo Hhi].
  split; [|split; [|split]].
  - revert Hlo Hhi. generalize (Qmax (- (5)) (Qmin 5 evaluation)).
    intros m Hlo Hhi.
    assert (E : (50 + m / 5 * 50 == 50 + 10 * m)%Q) by field.
    rewrite E. split; lra.
  - intros H. rewrite (Q.min_l 5 evaluation H).
    rewrite Q.max_r by discriminate. reflexivity.
  - intros H. rewrite (Q.min_r 5 evaluation) by lra.
    rewrite (Q.max_l (- (5)) evaluation H). reflexivity.
  - intros H1 H2. rewrite (Q.min_r 5 evaluation H2).
    rewrite (Q.max_r (- (5)) evaluation H1). field.
Qed.

Lemma whitePercentage_bounds_witness :
  (Components.whitePercentage 7 == 100)%Q
  /\ (Components.whitePercentage (- (7)) == 0)%Q
  /\ (Components.whitePercentage 1 == 50 + 10 * 1)%Q.
Proof.
  split; [|split].
  - destruct (whitePercentage_bounds 7) as (_ & H & _).
    apply H. discriminate.
  - destruct (whitePercentage_bounds (- (7))) as (_ & _ & H & _).
    apply H. discriminate.
  - destruct (whitePercentage_bounds 1) as (_ & _ & _ & H).
    apply H; discriminate.
Defined.

End EvaluationBar.

(** ** components.tsx: order and symmetry of getMoveQuality *)

Section MoveQualitySymmetry.

Ltac cases_of_comparisons :=
  repeat match goal with
    | |- context [if ?b then _ else _] => destruct b eqn:?
    end.

Ltac inequalities :=
  repeat match goal with
    | H : Number.lt (Qabs _) _ = true |- _ => apply abs_band_true in H
    | H : Number.lt (Qabs _) _ = false |- _ => apply abs_band_false in H
    | H : Number.gt _ _ = true |- _ => apply gt_true in H
    | H : Number.gt _ _ = false |- _ => apply gt_false in H
    | H : Number.lt _ _ = true |- _ => apply lt_true in H
    | H : Number.lt _ _ = false |- _ => apply lt_false in H
    end;
  repeat match goal with H : _ \/ _ |- _ => destruct H end.

Lemma classify_mirror (a b a' b' : Q) :
  (b' - a' == - (b - a))%Q ->
  SpecQuality.classify a' b' = SpecMirror.mirror (SpecQuality.classify a b).
Proof.
  unfold SpecQuality.classify. cbv zeta.
  generalize (b' - a')%Q (b - a)%Q. intros d' d Hd.
  cases_of_comparisons; try reflexivity; exfalso; inequalities;
    rewrite Hd in *; lra.
Qed.

Lemma classify_monotone (a b a' b' : Q) :
  (b - a <= b' - a')%Q ->
  SpecMirror.grade (SpecQuality.classify a b)
  <= SpecMirror.grade (SpecQuality.classify a' b').
Proof.
  unfold SpecQuality.classify. cbv zeta.
  generalize (b - a)%Q (b' - a')%Q. intros d d' Hd.
  cases_of_comparisons; cbn; try lia; exfalso; inequalities; lra.
Qed.

(** X11.  The label of [getMoveQuality] never gets worse when the
    previous evaluation is higher or the new evaluation is lower: in the
    order blunder, mistake, inaccuracy, book/equal, good, excellent,
    brilliant, the label for the greater difference is the same or a later
    one.  The early test [|diff| < 0.2] cuts no label out of that order. *)
Theorem getMoveQuality_monotone (evaluation evaluation' : Q)
    (prevEvaluation prevEvaluation' : Q) :
  (prevEvaluation <= prevEvaluation')%Q ->
  (evaluation' <= evaluation)%Q ->
  Components.getMoveQuality evaluation prevEvaluation
  = SpecQuality.display (SpecQuality.classify evaluation prevEvaluation)
  /\ Components.getMoveQuality evaluation' prevEvaluation'
     = SpecQuality.display
         (SpecQuality.classify evaluation' prevEvaluation')
  /\ SpecMirror.grade (SpecQuality.classify evaluation prevEvaluation)
     <= SpecMirror.grade (SpecQuality.classify evaluation' prevEvaluation').
Proof.
  intros Hp He. split; [apply getMoveQuality_table|].
  split; [apply getMoveQuality_table|].
  apply classify_monotone. lra.
Qed.

Lemma getMoveQuality_monotone_witness :
  symbol (Components.getMoveQuality (6 # 10) 0) = "?!"
  /\ symbol (Components.getMoveQuality (6 # 10) (12 # 10)) = "!?"
  /\ SpecMirror.grade (SpecQuality.classify (6 # 10) 0)
     <= SpecMirror.grade (SpecQuality.classify (6 # 10) (12 # 10)).
Proof.
  destruct (getMoveQuality_monotone (6 # 10) (6 # 10) 0 (12 # 10))
    as (H1 & H2 & H3).
  - discriminate.
  - discriminate.
  - rewrite H1, H2. split; [reflexivity|]. split; [reflexivity|exact H3].
Defined.

(** X12.  Exchanging the two evaluations, or judging the same two
    evaluations for black instead of white, mirrors the label: brilliant
    and blunder, excellent and mistake, good and inaccuracy change places,
    book/equal stays. *)
Theorem getMoveQuality_mirror (currentEval prevEval : Q) :
  Components.getMoveQuality prevEval currentEval
  = SpecQuality.display
      (SpecMirror.mirror (SpecQuality.classify currentEval prevEval))
  /\ Components.moveQualityIndicator currentEval prevEval true
     = SpecQuality.display (SpecQuality.classify currentEval prevEval)
  /\ Components.moveQualityIndicator currentEval prevEval false
     = SpecQuality.display
         (SpecMirror.mirror (SpecQuality.classify currentEval prevEval)).
Proof.
  unfold Components.moveQualityIndicator.
  rewrite !getMoveQuality_table. repeat split; f_equal.
  - apply classify_mirror. ring.
  - apply classify_mirror. ring.
Qed.

End MoveQualitySymmetry.

(** ** formatEvaluation: the range of the mate distance *)

Section MateDistance.

(** X13.  For a score whose absolute value is above 100 and at most 1000
    the mate distance printed after [M] is between 0 and 90; beyond 1000
    it is zero or negative. *)
Theorem formatEvaluation_distance_range (score : Q) :
  (100 < Qabs score)%Q ->
  exists K,
    Components.formatEvaluation score
    = (if Number.gt score 0 then "+M" else "-M") +:+ pretty K
    /\ ((Qabs score <= 1000)%Q -> 0 <= K <= 90)
    /\ ((1000 <= Qabs score)%Q -> K <= 0).
Proof.
  intros Habs. unfold Components.formatEvaluation. cbv zeta.
  pose proof Habs as Hgt. apply gt_true in Hgt. rewrite Hgt.
  exists (Qceiling ((1000 - Qabs score) / 10)).
  split; [destruct (Number.gt score 0); reflexivity|].
  revert Habs. generalize (Qabs score). intros a Habs. split.
  - intros Hle. split.
    + change 0 with (Qceiling 0). apply Qceiling_resp_le.
      assert (E : ((1000 - a) / 10 == (1000 - a) * (1 # 10))%Q) by field.
      rewrite E. lra.
    + change 90 with (Qceiling 90). apply Qceiling_resp_le.
      assert (E : ((1000 - a) / 10 == (1000 - a) * (1 # 10))%Q) by field.
      rewrite E. lra.
  - intros Hge. change 0 with (Qceiling 0). apply Qceiling_resp_le.
    assert (E : ((1000 - a) / 10 == (1000 - a) * (1 # 10))%Q) by field.
    rewrite E. lra.
Qed.

Lemma formatEvaluation_distance_range_witness :
  exists K,
    Components.formatEvaluation (- (955))
    = (if Number.gt (- (955)) 0 then "+M" else "-M") +:+ pretty K
    /\ ((Qabs (- (955)) <= 1000)%Q -> 0 <= K <= 90)
    /\ ((1000 <= Qabs (- (955)))%Q -> K <= 0).
Proof. apply (formatEvaluation_distance_range (- (955))). reflexivity. Defined.

Example formatEvaluation_beyond_1000 :
  Components.formatEvaluation 1050 = "+M-5".
Proof. vm_compute. reflexivity. Qed.

End MateDistance.

(** ** components.tsx: the entries of the highlight map *)

Section HighlightMap.

Implicit Types (m : gmap string MoveHighlight) (k : string).
Implicit Types (h move v : MoveHighlight).

Lemma show_digit (n : nat) :
  (n < 8)%nat ->
  JS.show (Num (Z.of_nat n)) = String (ascii_of_nat (48 + n)) EmptyString.
Proof.
  intros Hn.
  do 8 (destruct n as [|n]; [vm_compute; reflexivity|]). lia.
Qed.

Lemma squareKey_on_board (rowIndex colIndex : nat) :
  (rowIndex < 8)%nat -> (colIndex < 8)%nat ->
  Components.squareKey (Num (Z.of_nat rowIndex)) (Num (Z.of_nat colIndex))
  = String (ascii_of_nat (48 + rowIndex))
      (String "-" (String (ascii_of_nat (48 + colIndex)) EmptyString)).
Proof.
  intros Hr Hc. unfold Components.squareKey.
  rewrite (show_digit rowIndex Hr), (show_digit colIndex Hc). reflexivity.
Qed.

(** X14.  Two squares of the board have the same key only if they are the
    same square: an entry of the highlight map belongs to one square. *)
Theorem squareKey_injective (rowIndex colIndex rowIndex' colIndex' : nat) :
  (rowIndex < 8)%nat -> (colIndex < 8)%nat ->
  (rowIndex' < 8)%nat -> (colIndex' < 8)%nat ->
  Components.squareKey (Num (Z.of_nat rowIndex)) (Num (Z.of_nat colIndex))
  = Components.squareKey (Num (Z.of_nat rowIndex'))
      (Num (Z.of_nat colIndex')) ->
  rowIndex = rowIndex' /\ colIndex = colIndex'.
Proof.
  intros Hr Hc Hr' Hc' Hkey.
  rewrite !squareKey_on_board in Hkey by assumption.
  injection Hkey as Hrow Hcol.
  apply (f_equal nat_of_ascii) in Hrow, Hcol.
  rewrite !nat_ascii_embedding in Hrow, Hcol by lia. lia.
Qed.

Lemma squareKey_injective_witness : 3%nat = 3%nat /\ 4%nat = 4%nat.
Proof.
  apply (squareKey_injective 3 4 3 4); try lia. reflexivity.
Defined.

Lemma primaryHighlights_domain (highlight : option MoveHighlight) k :
  is_Some (Components.primaryHighlights highlight !! k)
  <-> k ∈ SpecKeys.primaryKeysOf highlight.
Proof.
  destruct highlight as [h|]; cbn.
  - split.
    + unfold SpecHighlights.primaryKeys. intros [v Hv].
      destruct (JS.truthy_ostr (castling h));
        rewrite !lookup_insert in Hv; repeat case_decide;
        try (rewrite lookup_empty in Hv; discriminate Hv);
        set_unfold; intuition congruence.
    + intros Hk.
      destruct (primaryHighlights_entries h k Hk) as (v & Hv & _). eauto.
  - rewrite lookup_empty. split; [intros [? H]; discriminate|].
    intros H. inversion H.
Qed.

Lemma addBest_domain m move k :
  is_Some (Components.addBest m move !! k)
  <-> is_Some (m !! k) \/ k = Components.fromKey move
      \/ k = Components.toKey move.
Proof.
  unfold Components.addBest.
  destruct (m !! Components.fromKey move) eqn:Hfrom.
  - pose proof (mk_is_Some _ _ Hfrom) as Hfrom'.
    destruct (m !! Components.toKey move) eqn:Hto.
    + pose proof (mk_is_Some _ _ Hto) as Hto'. intuition (subst; eauto).
    + rewrite lookup_insert_is_Some'. intuition (subst; eauto).
  - destruct (<[Components.fromKey move:=Components.withFromBestMove move]>
                m !! Components.toKey move) eqn:Hto.
    + pose proof (mk_is_Some _ _ Hto) as Hto'.
      rewrite lookup_insert_is_Some' in Hto'.
      rewrite lookup_insert_is_Some'. intuition (subst; eauto).
    + rewrite !lookup_insert_is_Some'. intuition (subst; eauto).
Qed.

Lemma addWorst_domain m move k :
  is_Some (Components.addWorst m move !! k)
  <-> is_Some (m !! k) \/ k = Components.toKey move.
Proof.
  unfold Components.addWorst.
  destruct (m !! Components.toKey move) eqn:Hto.
  - pose proof (mk_is_Some _ _ Hto) as Hto'. intuition (subst; eauto).
  - rewrite lookup_insert_is_Some'. intuition (subst; eauto).
Qed.

Lemma foldl_addBest_domain (l : list MoveHighlight) :
  forall m k,
    is_Some (foldl Components.addBest m l !! k)
    <-> is_Some (m !! k)
        \/ k ∈ flat_map (fun move => [Components.fromKey move;
                                      Components.toKey move]) l.
Proof.
  induction l as [|x l IH]; intros m k; cbn.
  - split; [auto|]. intros [H|H]; [exact H|inversion H].
  - rewrite IH, addBest_domain. set_unfold. tauto.
Qed.

Lemma foldl_addWorst_domain (l : list MoveHighlight) :
  forall m k,
    is_Some (foldl Components.addWorst m l !! k)
    <-> is_Some (m !! k) \/ k ∈ (Components.toKey <$> l).
Proof.
  induction l as [|x l IH]; intros m k; cbn.
  - split; [auto|]. intros [H|H]; [exact H|inversion H].
  - rewrite IH, addWorst_domain. set_unfold. tauto.
Qed.

(** X15.  The squares that carry an entry in [allHighlights] are exactly
    the squares of the played move (origin, destination, rook squares of a
    castling), the origins and destinations of the best suggested moves and
    the destinations of the worst ones: the origin of a worst move gets no
    entry of its own. *)
Theorem allHighlights_domain (highlight : option MoveHighlight)
    (suggestedMoves : SuggestedMoves) k :
  is_Some (Components.allHighlights highlight suggestedMoves !! k)
  <-> k ∈ (SpecKeys.primaryKeysOf highlight
           ++ SpecKeys.overlayKeys suggestedMoves)%list.
Proof.
  unfold Components.allHighlights, Components.forEach, SpecKeys.overlayKeys.
  destruct (best suggestedMoves) as [bs|];
    destruct (worst suggestedMoves) as [ws|]; cbn;
    rewrite ?foldl_addWorst_domain, ?foldl_addBest_domain,
      primaryHighlights_domain;
    set_unfold; tauto.
Qed.

Lemma allHighlights_domain_witness :
  is_Some (Components.allHighlights (Some Sample.primary) Sample.overlay
             !! "3-3").
Proof.
  apply (allHighlights_domain (Some Sample.primary) Sample.overlay "3-3").
  vm_compute. right. left.
Defined.

End HighlightMap.

(** ** components.tsx and home.tsx: how the best suggestions are drawn *)

Section BestSuggestionColours.

Implicit Types (m : gmap string MoveHighlight) (k : string).
Implicit Types (h move v : MoveHighlight).

Lemma addBest_values m move k v :
  Components.addBest m move !! k = Some v ->
  m !! k = Some v \/ v = Components.withFromBestMove move \/ v = move.
Proof.
  unfold Components.addBest.
  destruct (m !! Components.fromKey move) eqn:Hfrom.
  - destruct (m !! Components.toKey move) eqn:Hto; [auto|].
    rewrite lookup_insert. case_decide; [|auto].
    intros [= <-]. auto.
  - destruct (<[Components.fromKey move:=Components.withFromBestMove move]>
                m !! Components.toKey move) eqn:Hto.
    + rewrite lookup_insert. case_decide; [|auto]. intros [= <-]. auto.
    + rewrite !lookup_insert. repeat case_decide; try (intros [= <-]); auto.
Qed.

Lemma foldl_addBest_values (l : list MoveHighlight) :
  forall m k v,
    foldl Components.addBest m l !! k = Some v ->
    m !! k = Some v
    \/ exists move, move ∈ l
         /\ (v = Components.withFromBestMove move \/ v = move).
Proof.
  induction l as [|x l IH]; intros m k v Hv; cbn in Hv; [auto|].
  apply IH in Hv as [Hv|(move & Hin & Hmove)].
  - apply addBest_values in Hv as [Hv|Hv]; [auto|].
    right. exists x. split; [left|exact Hv].
  - right. exists move. split; [right; exact Hin|exact Hmove].
Qed.

Lemma bestOf_updateSuggestedMoves (showSuggestedMoves showingBestMove : bool)
    (a : PositionAnalysisData) move :
  move ∈ SpecOverlay.bestOf
           (Home.updateSuggestedMoves showSuggestedMoves showingBestMove
              (Some a)) ->
  isFromBestMove move = Some true /\ isRookCastling move = None.
Proof.
  unfold Home.updateSuggestedMoves, SpecOverlay.bestOf.
  destruct (negb showSuggestedMoves && negb showingBestMove)%bool; cbn.
  - intros H. inversion H.
  - intros H. apply elem_of_lookup_imap in H as (i & x & -> & _).
    split; reflexivity.
Qed.

(** X16.  Every square of the board that is the origin or the destination
    of a best move of the overlay built by [updateSuggestedMoves], and is
    not a square of the played move, is drawn in the origin style: emerald
    700 or 400 by the colour of the square, with the emerald 500 border.
    The overlay marks its best moves [isFromBestMove], which the board
    tests before [isBestMove]: the destination style of the legend
    (emerald 300) is not used for them. *)
Theorem best_suggestion_squares_drawn_alike
    (showSuggestedMoves showingBestMove : bool) (a : PositionAnalysisData)
    (highlight : option MoveHighlight) (rowIndex colIndex : nat)
    (piece : string) :
  let overlay :=
    Home.updateSuggestedMoves showSuggestedMoves showingBestMove (Some a) in
  let k :=
    Components.squareKey (Num (Z.of_nat rowIndex))
      (Num (Z.of_nat colIndex)) in
  (rowIndex < 8)%nat -> (colIndex < 8)%nat ->
  k ∉ SpecKeys.primaryKeysOf highlight ->
  k ∈ flat_map (fun move => [Components.fromKey move; Components.toKey move])
        (SpecOverlay.bestOf overlay) ->
  Components.squareColors highlight overlay rowIndex colIndex piece
  = (if ((rowIndex + colIndex) mod 2 =? 1)%nat
     then "bg-emerald-700" else "bg-emerald-400",
     "border-2 border-emerald-500").
Proof.
  cbv zeta. intros Hr Hc Hprimary Hbest.
  set (overlay := Home.updateSuggestedMoves showSuggestedMoves
                    showingBestMove (Some a)) in *.
  set (k := Components.squareKey (Num (Z.of_nat rowIndex))
              (Num (Z.of_nat colIndex))) in *.
  assert (Hnone : Components.primaryHighlights highlight !! k = None).
  { apply eq_None_not_Some. rewrite primaryHighlights_domain. exact Hprimary. }
  assert (Hentry : exists v,
            Components.allHighlights highlight overlay !! k = Some v
            /\ isFromBestMove v = Some true /\ isRookCastling v = None).
  { unfold Components.allHighlights, SpecOverlay.bestOf in *.
    destruct (best overlay) as [bs|] eqn:Hbs;
      [|cbn in Hbest; inversion Hbest]. cbn in Hbest. cbn.
    destruct (proj2 (foldl_addBest_domain bs
                       (Components.primaryHighlights highlight) k))
      as [v Hv]; [right; exact Hbest|].
    exists v. split.
    - apply forEach_keeps; [intros; by apply addWorst_keeps|exact Hv].
    - apply foldl_addBest_values in Hv as [Hv|(move & Hin & Hv)];
        [congruence|].
      destruct (bestOf_updateSuggestedMoves showSuggestedMoves
                  showingBestMove a move) as [H1 H2].
      { unfold SpecOverlay.bestOf. fold overlay. rewrite Hbs. exact Hin. }
      destruct Hv as [-> | ->]; cbn; auto. }
  destruct Hentry as (v & Hv & Hfrom & Hrook).
  assert (Hk : k = String (ascii_of_nat (48 + rowIndex))
                 (String "-" (String (ascii_of_nat (48 + colIndex))
                                EmptyString)))
    by (apply squareKey_on_board; assumption).
  assert (Hf : String.eqb k (Components.primaryFromKey highlight) = false).
  { apply String.eqb_neq. destruct highlight as [h|]; cbn.
    - intros E. apply Hprimary. cbn. unfold SpecHighlights.primaryKeys.
      rewrite E. set_unfold. tauto.
    - rewrite Hk. discriminate. }
  assert (Ht : String.eqb k (Components.primaryToKey highlight) = false).
  { apply String.eqb_neq. destruct highlight as [h|]; cbn.
    - intros E. apply Hprimary. cbn. unfold SpecHighlights.primaryKeys.
      rewrite E. set_unfold. tauto.
    - rewrite Hk. discriminate. }
  unfold Components.squareColors. fold k. rewrite Hv, Hf, Ht.
  unfold Components.flag. rewrite Hrook, Hfrom. cbn.
  rewrite andb_false_r. reflexivity.
Qed.

Lemma best_suggestion_squares_drawn_alike_witness :
  Components.squareColors None
    (Home.updateSuggestedMoves true false (Some Sample.analysis0)) 4 4 ""
  = ("bg-emerald-400", "border-2 border-emerald-500").
Proof.
  apply (best_suggestion_squares_drawn_alike true false Sample.analysis0
           None 4 4 "").
  - lia.
  - lia.
  - cbn. intros H. inversion H.
  - vm_compute. right. left.
Defined.

End BestSuggestionColours.

(** ** home.tsx: the analysis table *)

Section AnalysisTable.

Implicit Types (s : Home.State) (g : ChessGame) (w : Home.World).










End AnalysisTable.

(** ** home.tsx: what holds in every reachable world *)

Section ReachableWorlds.

Implicit Types (s : Home.State) (g : ChessGame) (w : Home.World).



Lemma timeoutFired_ok (t : Home.Timeout) g s :
  Home.tm_gameData t = Some g ->
  0 <= Home.tm_currentMove t <= Home.moveCount g ->
  exists s', Home.timeoutFired t s = Ok s'.
Proof.
  intros Hg Hc. unfold Home.timeoutFired. rewrite Hg.
  destruct (0 <? Home.tm_currentMove t) eqn:E; [|eauto].
  apply Z.ltb_lt in E.
  destruct (index_in_range (moves g) (Home.tm_currentMove t - 1))
    as [move Hmove].
  { unfold Home.moveCount in Hc. lia. }
  rewrite Hmove. eauto.
Qed.

Lemma fire_ok g (now : Z) (ts : list (Z * Home.Timeout)) :
  Forall
    (fun dt : Z * Home.Timeout =>
       exists g', Home.tm_gameData dt.2 = Some g'
                  /\ moves g' = moves g
                  /\ 0 <= Home.tm_currentMove dt.2 <= Home.moveCount g) ts ->
  forall s n,
    exists s' rest n',
      Home.fire now ts s n = Some (s', rest, n')
      /\ Forall
           (fun dt : Z * Home.Timeout =>
              exists g', Home.tm_gameData dt.2 = Some g'
                         /\ moves g' = moves g
                         /\ 0 <= Home.tm_currentMove dt.2
                            <= Home.moveCount g) rest.
Proof.
  induction 1 as [|[due t] ts (g' & Hg' & Hm & Hc) Hts IH]; intros s n; cbn.
  - eauto.
  - cbn in Hg', Hc. destruct (due <=? now).
    + destruct (timeoutFired_ok t g' s Hg') as [s1 Hs1].
      { rewrite (moveCount_moves g g' Hm). exact Hc. }
      rewrite Hs1. apply IH.
    + destruct (IH s n) as (s' & rest & n' & Hf & Hrest).
      rewrite Hf. eexists _, _, _. split; [reflexivity|].
      constructor; [|exact Hrest]. cbn. eauto.
Qed.

Lemma step_timeoutsOk (e : Home.Event) g w w' :
  SpecInvariant.inv g w -> SpecWorld.timeoutsOk g w ->
  Home.step e w = Some w' -> SpecWorld.timeoutsOk g w'.
Proof.
  intros ((g0 & Hg & Hmoves) & Hc & _) Hts Hstep.
  unfold SpecWorld.timeoutsOk in *.
  destruct e; cbn in Hstep.
  - destruct (Home.handleMoveChange (Home.memo w) (Home.st w) moveIndex)
      as [[s1 rqs]|]; [|discriminate]. injection Hstep as <-. exact Hts.
  - destruct (Home.handleMoveChange (Home.memo w) (Home.st w) _)
      as [[s1 rqs]|]; [|discriminate]. injection Hstep as <-. exact Hts.
  - destruct (Home.handleToggleBestMove (Home.st w)) as [s1 rqs].
    injection Hstep as <-. exact Hts.
  - injection Hstep as <-. exact Hts.
  - destruct (Home.interval w); [|discriminate].
    injection Hstep as <-. exact Hts.
  - injection Hstep as <-. cbn. apply Forall_app. split; [exact Hts|].
    constructor; [|constructor]. cbn. eauto.
  - destruct (ms <? 0); [discriminate|].
    destruct (fire_ok g (Home.clock w + ms) (Home.timeouts w) Hts
                (Home.st w) (Home.restorations w))
      as (s1 & rest & n1 & Hf & Hrest).
    rewrite Hf in Hstep. injection Hstep as <-. exact Hrest.
  - destruct (Home.requests w !! k); [|discriminate].
    injection Hstep as <-. exact Hts.
  - destruct (Home.requests w !! k); [|discriminate].
    injection Hstep as <-. exact Hts.
Qed.

Lemma reachable_timeoutsOk g s w :
  Home.reachable (Home.loaded g s) w ->
  SpecInvariant.inv g w /\ SpecWorld.timeoutsOk g w.
Proof.
  intros [es Hrun]. revert Hrun.
  assert (H0 : SpecInvariant.inv g (Home.loaded g s)
               /\ SpecWorld.timeoutsOk g (Home.loaded g s)).
  { split; [apply loaded_inv|constructor]. }
  revert H0. generalize (Home.loaded g s).
  induction es as [|e es IH]; intros w0 [Hinv Hts] Hrun; cbn in Hrun.
  - injection Hrun as <-. auto.
  - destruct (Home.step e w0) as [w1|] eqn:Hstep; [|discriminate].
    apply (IH w1); [|exact Hrun]. split.
    + eapply step_inv; eassumption.
    + eapply step_timeoutsOk; eassumption.
Qed.

(** X20.  In every world reached from a loaded game no handler raises:
    [handleMoveChange] returns for every index (called by the controls or
    by the effect), a preview can always be started, the restorations that
    fall due always run (the move they read exists), and the render can
    always compute the move-quality indicator. *)
Theorem reachable_no_exception g s w :
  Home.reachable (Home.loaded g s) w ->
  (forall i, is_Some (Home.step (Home.GoTo i) w))
  /\ is_Some (Home.step Home.MoveEffect w)
  /\ (forall h, is_Some (Home.step (Home.ShowMoveOnBoard h) w))
  /\ (forall ms, 0 <= ms -> is_Some (Home.step (Home.Elapse ms) w))
  /\ exists q, Home.moveQualityShown (Home.st w) = Ok q.
Proof.
  intros Hreach.
  destruct (reachable_timeoutsOk g s w Hreach)
    as [((g0 & Hg & Hmoves) & Hc & _) Hts].
  split; [|split; [|split; [|split]]].
  - intros i. cbn.
    destruct (handleMoveChange_total (Home.memo w) (Home.st w) i)
      as (s' & rqs & H).
    rewrite H. eauto.
  - cbn.
    destruct (handleMoveChange_total (Home.memo w) (Home.st w)
                (Home.currentMove (Home.st w))) as (s' & rqs & H).
    rewrite H. eauto.
  - intros h. cbn. eauto.
  - intros ms Hms. cbn.
    destruct (ms <? 0) eqn:E; [apply Z.ltb_lt in E; lia|].
    destruct (fire_ok g (Home.clock w + ms) (Home.timeouts w) Hts
                (Home.st w) (Home.restorations w))
      as (s1 & rest & n1 & Hf & _).
    rewrite Hf. eauto.
  - unfold Home.moveQualityShown. rewrite Hg.
    destruct (0 <? Home.currentMove (Home.st w)) eqn:E; [|eauto].
    apply Z.ltb_lt in E.
    destruct (Home.previousPositionEval (Home.st w)); [|eauto].
    destruct (Home.getCurrentEvaluation (Home.st w)); [|eauto].
    destruct (index_in_range (moves g0) (Home.currentMove (Home.st w) - 1))
      as [move Hmove].
    { rewrite Hmoves. unfold Home.moveCount in Hc. lia. }
    rewrite Hmove. eauto.
Qed.

Lemma reachable_no_exception_witness :
  is_Some
    (Home.step (Home.Elapse 2000)
       (SampleRuns.after
          [Home.GoTo 2; Home.ShowMoveOnBoard SamplePreviews.first;
           Home.GoTo 0] SampleRuns.plain)).
Proof.
  destruct (reachable_no_exception Sample.game Sample.initial
              (SampleRuns.after
                 [Home.GoTo 2; Home.ShowMoveOnBoard SamplePreviews.first;
                  Home.GoTo 0] SampleRuns.plain))
    as (_ & _ & _ & H & _).
  - exists [Home.GoTo 2; Home.ShowMoveOnBoard SamplePreviews.first;
            Home.GoTo 0].
    vm_compute. reflexivity.
  - apply H. discriminate.
Defined.

Lemma reachable_tick_witness :
  Home.currentMove
    (Home.st (SampleRuns.after [Home.ToggleAutoPlay; Home.Tick]
                SampleRuns.plain)) = 0 + 1.
Proof.
  destruct (reachable_tick Sample.game Sample.initial
              (SampleRuns.after [Home.ToggleAutoPlay] SampleRuns.plain))
    as [H _].
  - exists [Home.ToggleAutoPlay]. vm_compute. reflexivity.
  - apply (H (SampleRuns.after [Home.ToggleAutoPlay; Home.Tick]
                SampleRuns.plain)).
    vm_compute. reflexivity.
Defined.

Lemma pause_cancels_witness :
  exists w',
    Home.step Home.ToggleAutoPlay
      (SampleRuns.after [Home.ToggleAutoPlay; Home.Tick] SampleRuns.plain)
    = Some w'
    /\ Home.autoPlay (Home.st w') = false
    /\ Home.interval w' = None
    /\ Home.step Home.Tick w' = None.
Proof.
  apply (pause_cancels
           (SampleRuns.after [Home.ToggleAutoPlay; Home.Tick]
              SampleRuns.plain)).
  reflexivity.
Defined.

End ReachableWorlds.

(** ** home.tsx: the best-move toggle and the move quality *)

Section ToggleAndQuality.

Implicit Types (s : Home.State) (g : ChessGame) (w : Home.World).

(** X23.  At an analysed ply [handleToggleBestMove] sends no request,
    flips the toggle and rebuilds the overlay from the value the toggle
    had before the flip.  With suggestions shown, switching the toggle on
    therefore leaves up to two best moves in the overlay, and switching it
    off leaves one.  At a ply without analysis the toggle is left as it is
    and one request for the current ply is sent. *)
Theorem handleToggleBestMove_overlay s g :
  Home.gameData s = Some g ->
  0 <= Home.currentMove s < Z.of_nat (length (positions g)) ->
  (forall a,
     Home.analysisAt g (Home.currentMove s) = Some a ->
     Home.showSuggestedMoves s = true ->
     (Home.handleToggleBestMove s).2 = []
     /\ Home.showingBestMove (Home.handleToggleBestMove s).1
        = negb (Home.showingBestMove s)
     /\ length (SpecOverlay.bestOf
                  (Home.suggestedMoves (Home.handleToggleBestMove s).1))
        = Nat.min (if Home.showingBestMove s then 1 else 2)
            (length (bestMoves a)))
  /\ (Home.analysisAt g (Home.currentMove s) = None ->
      Home.showingBestMove (Home.handleToggleBestMove s).1
      = Home.showingBestMove s
      /\ (Home.rq_moveIndex <$> (Home.handleToggleBestMove s).2)
         = [Home.currentMove s]).
Proof.
  intros Hg [Hlo Hhi]. unfold Home.handleToggleBestMove. rewrite Hg. split.
  - intros a Ha Hshow. rewrite Ha. cbn.
    split; [reflexivity|]. split; [reflexivity|].
    unfold Home.updateSuggestedMoves, SpecOverlay.bestOf. rewrite Hshow.
    cbn -[Nat.min].
    destruct (Home.showingBestMove s); cbn -[Nat.min];
      rewrite length_imap, length_take; lia.
  - intros Ha. rewrite Ha.
    apply Z.ltb_lt in Hhi. rewrite Hhi.
    unfold Home.analyzePosition. rewrite Hg. cbn. split; reflexivity.
Qed.

Lemma handleToggleBestMove_overlay_witness :
  let s := Home.st (SampleRuns.after [Home.GoTo 1] SampleRuns.analysed) in
  Home.showingBestMove (Home.handleToggleBestMove s).1 = true
  /\ length (SpecOverlay.bestOf
               (Home.suggestedMoves (Home.handleToggleBestMove s).1))
     = 2%nat.
Proof.
  cbv zeta.
  destruct (handleToggleBestMove_overlay
              (Home.st (SampleRuns.after [Home.GoTo 1] SampleRuns.analysed))
              Sample.analysedGame) as [H _].
  - reflexivity.
  - split; [discriminate|reflexivity].
  - destruct (H Sample.analysis1) as (_ & Htoggle & Hbest).
    + reflexivity.
    + reflexivity.
    + split; [exact Htoggle|exact Hbest].
Defined.

Lemma getMoveQuality_unchanged (evaluation : Q) :
  Components.getMoveQuality evaluation evaluation = SpecWorld.bookMove.
Proof.
  unfold Components.getMoveQuality. cbv zeta.
  assert (H : Number.lt (Qabs (evaluation - evaluation)) (2 # 10) = true).
  { apply abs_band_true. split; lra. }
  rewrite H. reflexivity.
Qed.

(** X24.  After [goTo(i)] to an analysed ply [i > 0] and the effect that
    calls [handleMoveChange(currentMove)] once more, the move-quality
    indicator is shown and reads "Mossa da manuale" [=], whatever the
    evaluations of the plies are: the second call has replaced the
    snapshot of the previous ply by the evaluation of ply [i] itself. *)
Theorem move_quality_after_effect (captured captured' : bool) s g i
    (a : PositionAnalysisData) :
  Home.gameData s = Some g ->
  0 < i <= Home.moveCount g ->
  Home.analysisAt g i = Some a ->
  exists s1 rqs1 s2 rqs2,
    Home.handleMoveChange captured s i = Ok (s1, rqs1)
    /\ Home.handleMoveChange captured' s1 (Home.currentMove s1)
       = Ok (s2, rqs2)
    /\ Home.previousPositionEval s2 = Some (pa_evaluation a)
    /\ Home.getCurrentEvaluation s2 = Some (pa_evaluation a)
    /\ Home.moveQualityShown s2 = Ok (Some SpecWorld.bookMove).
Proof.
  intros Hg Hi Ha.
  destruct (handleMoveChange_in_range captured s g i Hg)
    as (s1 & rqs1 & H1 & Hg1 & Hc1 & _); [lia|].
  destruct (handleMoveChange_in_range captured' s1 g i Hg1)
    as (s2 & rqs2 & H2 & Hg2 & Hc2 & _ & _ & _ & Hp2 & _); [lia|].
  exists s1, rqs1, s2, rqs2. rewrite Hc1.
  assert (Hprev : Home.previousPositionEval s2 = Some (pa_evaluation a)).
  { rewrite Hp2. unfold SpecNavigation.snapshotOf. rewrite Hc1, Ha.
    reflexivity. }
  assert (Hcur : Home.getCurrentEvaluation s2 = Some (pa_evaluation a)).
  { unfold Home.getCurrentEvaluation. rewrite Hg2, Hc2, Ha. reflexivity. }
  split; [exact H1|]. split; [exact H2|]. split; [exact Hprev|].
  split; [exact Hcur|].
  unfold Home.moveQualityShown. rewrite Hg2, Hc2, Hprev, Hcur.
  assert (E : (0 <? i) = true) by (apply Z.ltb_lt; lia). rewrite E.
  destruct (index_in_range (moves g) (i - 1)) as [move Hmove].
  { unfold Home.moveCount in Hi. lia. }
  rewrite Hmove. do 2 f_equal.
  unfold Components.moveQualityIndicator.
  destruct (String.eqb (md_color move) "white");
    apply getMoveQuality_unchanged.
Qed.

Lemma move_quality_after_effect_witness :
  exists s1 rqs1 s2 rqs2,
    Home.handleMoveChange false (Home.st SampleRuns.analysed) 1
    = Ok (s1, rqs1)
    /\ Home.handleMoveChange false s1 (Home.currentMove s1) = Ok (s2, rqs2)
    /\ Home.previousPositionEval s2 = Some (pa_evaluation Sample.analysis1)
    /\ Home.getCurrentEvaluation s2 = Some (pa_evaluation Sample.analysis1)
    /\ Home.moveQualityShown s2 = Ok (Some SpecWorld.bookMove).
Proof.
  apply (move_quality_after_effect false false
           (Home.st SampleRuns.analysed)
           Sample.analysedGame 1 Sample.analysis1).
  - reflexivity.
  - split; [reflexivity|discriminate].
  - reflexivity.
Defined.

End ToggleAndQuality.

(** ** components.tsx: precedence among the suggested moves *)

Section SuggestionPrecedence.

Implicit Types (m : gmap string MoveHighlight) (k : string).
Implicit Types (h move v : MoveHighlight).

Lemma foldl_addBest_keeps (l : list MoveHighlight) :
  forall m k v,
    m !! k = Some v -> foldl Components.addBest m l !! k = Some v.
Proof.
  induction l as [|x l IH]; intros m k v Hk; cbn; [exact Hk|].
  apply IH, addBest_keeps, Hk.
Qed.

(** X25.  Among the suggested moves the first writer wins as well: an
    entry written for one of the first best moves is the entry of the
    final map, whatever best moves follow in the list and whatever the
    worst moves are.  A worst move never takes the square of a best move,
    nor a later best move the square of an earlier one. *)
Theorem earlier_suggestion_wins (highlight : option MoveHighlight)
    (earlier later : list MoveHighlight)
    (worstMoves : option (list MoveHighlight)) k v :
  Components.allHighlights highlight
    {| best := Some earlier; worst := None |} !! k = Some v ->
  Components.allHighlights highlight
    {| best := Some (earlier ++ later)%list; worst := worstMoves |} !! k
  = Some v.
Proof.
  unfold Components.allHighlights. cbn. intros Hk.
  apply forEach_keeps; [intros; by apply addWorst_keeps|].
  rewrite foldl_app. apply foldl_addBest_keeps, Hk.
Qed.

Lemma earlier_suggestion_wins_witness :
  Components.allHighlights None
    {| best := Some ([Home.bestHighlight 0
                        (Sample.candidate "e2e4" "e4" (3 # 10))]
                     ++ [Home.bestHighlight 1
                           (Sample.candidate "d2e4" "x" (3 # 10))])%list;
       worst := Some [Home.worstHighlight
                        (Sample.candidate "f2e4" "y" (- (1)))] |} !! "4-4"
  = Some (Home.bestHighlight 0 (Sample.candidate "e2e4" "e4" (3 # 10))).
Proof.
  apply (earlier_suggestion_wins None). vm_compute. reflexivity.
Defined.

End SuggestionPrecedence.
